(** * Proxer: a shallow embedding of [main.py]

    The development follows the layout of the program:
    - [Py]: the fragments of the Python runtime the program relies on
      (strings, [str.splitlines], [str.join], the [in] operator, the
      regular expressions of [re.match]);
    - [Effects]: the world the program acts on (network, files, terminal,
      clock) and the exception monad its methods live in;
    - [ProxyManager] and [ProxyCLI]: the two classes, method by method;
    - the properties. *)

From Stdlib Require Import ZArith Ascii String List Lia.
From stdpp Require Import base gmap sets list strings pretty.

Local Open Scope Z_scope.

(** ** Python strings

    A [str] is modelled by [string]: a sequence of code points below 256.
    Code points above that (in particular the line separators U+2028 and
    U+2029) are outside the model. *)
Module Py.

Definition LF  : ascii := "010"%char.
Definition VT  : ascii := "011"%char.
Definition FF  : ascii := "012"%char.
Definition CR  : ascii := "013"%char.
Definition FS  : ascii := "028"%char.
Definition GS  : ascii := "029"%char.
Definition RS  : ascii := "030"%char.
Definition NEL : ascii := "133"%char.
Definition ESC : ascii := "027"%char.

Definition nl : string := String LF EmptyString.

(** The line boundaries of [str.splitlines]. *)
Definition is_linebreak (c : ascii) : bool :=
  (c =? LF)%char || (c =? VT)%char || (c =? FF)%char || (c =? CR)%char ||
  (c =? FS)%char || (c =? GS)%char || (c =? RS)%char || (c =? NEL)%char.

(** [s.splitlines()]: [cur] is the line being read.  A carriage return
    followed by a line feed is one boundary, and no empty last line is
    produced after a final boundary. *)
Fixpoint splitlines_from (cur s : string) : list string :=
  match s with
  | EmptyString =>
      match cur with EmptyString => [] | _ => [cur] end
  | String c s' =>
      if is_linebreak c then
        cur ::
          match s' with
          | String c' s'' =>
              if (c =? CR)%char && (c' =? LF)%char
              then splitlines_from EmptyString s''
              else splitlines_from EmptyString s'
          | EmptyString => splitlines_from EmptyString s'
          end
      else splitlines_from (cur +:+ String c EmptyString) s'
  end.

Definition splitlines (s : string) : list string :=
  splitlines_from EmptyString s.

(** [sep.join(l)]. *)
Fixpoint join (sep : string) (l : list string) : string :=
  match l with
  | [] => EmptyString
  | [x] => x
  | x :: l' => x +:+ sep +:+ join sep l'
  end.

(** [s.startswith(p)]. *)
Fixpoint startswith (p s : string) : bool :=
  match p, s with
  | EmptyString, _ => true
  | String a p', String b s' => (a =? b)%char && startswith p' s'
  | String _ _, EmptyString => false
  end.

(** [p in s] on strings: [p] occurs in [s] as a substring. *)
Fixpoint str_in (p s : string) : bool :=
  startswith p s ||
  match s with
  | EmptyString => false
  | String _ s' => str_in p s'
  end.

(** [c] is one of [0-9]: what [\d] matches below code point 256. *)
Definition is_decimal (c : ascii) : bool :=
  let n := nat_of_ascii c in (48 <=? n)%nat && (n <=? 57)%nat.

(** [str.isdigit] on one character: the decimal digits and the
    superscript digits U+00B2, U+00B3 and U+00B9. *)
Definition char_isdigit (c : ascii) : bool :=
  is_decimal c ||
  (c =? "178")%char || (c =? "179")%char || (c =? "185")%char.

Fixpoint all_chars (p : ascii -> bool) (s : string) : bool :=
  match s with
  | EmptyString => true
  | String c s' => p c && all_chars p s'
  end.

(** [s.isdigit()]: at least one character, all of them digits. *)
Definition isdigit (s : string) : bool :=
  match s with
  | EmptyString => false
  | _ => all_chars char_isdigit s
  end.

(** *** Regular expressions

    The patterns of the program use literals, [\d], concatenation and
    bounded or unbounded repetition; they are matched by derivatives. *)
Inductive regex : Type :=
| Nothing
| Eps
| Lit (c : ascii)
| Digit
| Cat (r1 r2 : regex)
| Alt (r1 r2 : regex)
| Star (r : regex).

Fixpoint nullable (r : regex) : bool :=
  match r with
  | Nothing => false
  | Eps => true
  | Lit _ => false
  | Digit => false
  | Cat r1 r2 => nullable r1 && nullable r2
  | Alt r1 r2 => nullable r1 || nullable r2
  | Star _ => true
  end.

Fixpoint deriv (c : ascii) (r : regex) : regex :=
  match r with
  | Nothing => Nothing
  | Eps => Nothing
  | Lit a => if (a =? c)%char then Eps else Nothing
  | Digit => if is_decimal c then Eps else Nothing
  | Cat r1 r2 =>
      if nullable r1
      then Alt (Cat (deriv c r1) r2) (deriv c r2)
      else Cat (deriv c r1) r2
  | Alt r1 r2 => Alt (deriv c r1) (deriv c r2)
  | Star r1 => Cat (deriv c r1) (Star r1)
  end.

Fixpoint fullmatch (r : regex) (s : string) : bool :=
  match s with
  | EmptyString => nullable r
  | String c s' => fullmatch (deriv c r) s'
  end.

(** [s] without one final line feed, when it has one. *)
Fixpoint chomp (s : string) : option string :=
  match s with
  | EmptyString => None
  | String c EmptyString => if (c =? LF)%char then Some EmptyString else None
  | String c s' => option_map (String c) (chomp s')
  end.

(** [re.match('^' r '$', s)]: the match starts at the beginning of [s],
    and [$] stands at its end or just before a final line feed. *)
Definition re_match (r : regex) (s : string) : bool :=
  fullmatch r s ||
  match chomp s with
  | Some s' => fullmatch r s'
  | None => false
  end.

(** [r] matches no string at all, by its shape. *)
Fixpoint void (r : regex) : bool :=
  match r with
  | Nothing => true
  | Eps | Lit _ | Digit | Star _ => false
  | Cat r1 r2 => void r1 || void r2
  | Alt r1 r2 => void r1 && void r2
  end.

(** Every literal of [r] satisfies [p]. *)
Fixpoint literals (p : ascii -> bool) (r : regex) : bool :=
  match r with
  | Nothing | Eps | Digit => true
  | Lit c => p c
  | Cat r1 r2 | Alt r1 r2 => literals p r1 && literals p r2
  | Star r1 => literals p r1
  end.

(** [r+], [r{1,3}] and the concatenation of a list of patterns. *)
Definition Plus (r : regex) : regex := Cat r (Star r).
Definition Opt (r : regex) : regex := Alt Eps r.
Definition Upto3 (r : regex) : regex := Cat r (Opt (Cat r (Opt r))).
Definition Seq (rs : list regex) : regex := fold_right Cat Eps rs.

End Py.

(** ** The world and the exception monad *)
Module Effects.

(** Exceptions, by the classes the program distinguishes.
    [RequestException] stands for [requests.RequestException] and its
    subclasses (connection, proxy, TLS, timeout and HTTP errors);
    [OtherException] for any other class, [KeyboardInterrupt] included. *)
Inductive exn : Type :=
| RequestException (msg : string)
| ValueError (msg : string)
| FileNotFoundError (path : string)
| IndexError
| KeyError (key : string)
| EOFError
| OtherException (name : string).

Definition is_RequestException (e : exn) : bool :=
  match e with RequestException _ => true | _ => false end.

Definition is_FileNotFoundError (e : exn) : bool :=
  match e with FileNotFoundError _ => true | _ => false end.

(** [str(e)]. *)
Definition exn_str (e : exn) : string :=
  match e with
  | RequestException m => m
  | ValueError m => m
  | FileNotFoundError p => p
  | IndexError => "list index out of range"
  | KeyError k => k
  | EOFError => EmptyString
  | OtherException n => n
  end.

(** One call of [requests.get(url, proxies={'http': p, 'https': p},
    timeout=t)]; [req_proxies] is [None] when the call gives no proxies. *)
Record request : Type := Request {
  req_url : string;
  req_proxies : option string;
  req_timeout : option Z
}.

Record response : Type := Response {
  status_code : Z;
  text : string
}.

Inductive os : Type := posix | nt.

(** What the program does not control: how the network answers a request
    (given the requests sent before it), what the clock reads, how
    BeautifulSoup splits a page in rows of cells, and the platform. *)
Record environment : Type := Environment {
  network : list request -> request -> exn + response;
  clock : nat -> string;
  html_rows : string -> list (list string);
  platform : os
}.

(** What the program changes: the requests it has sent (oldest first),
    the files, the lines printed, the lines still to be typed by the user
    and the number of clock readings. *)
Record world : Type := World {
  sent : list request;
  files : gmap string string;
  stdout : list string;
  stdin : list string;
  ticks : nat
}.

Definition initial_world (typed : list string) : world :=
  World [] ∅ [] typed 0.

Inductive outcome (A : Type) : Type :=
| Return (a : A)
| Raise (e : exn).
Arguments Return {A} a.
Arguments Raise {A} e.

Definition py (A : Type) : Type := world -> outcome A * world.

Definition ret {A} (a : A) : py A := fun w => (Return a, w).

Definition raise {A} (e : exn) : py A := fun w => (Raise e, w).

Definition bind {A B} (m : py A) (k : A -> py B) : py B :=
  fun w =>
    match m w with
    | (Return a, w') => k a w'
    | (Raise e, w') => (Raise e, w')
    end.

(** [try: body  except <caught> as e: handler e]. *)
Definition try_except {A} (body : py A) (caught : exn -> bool)
    (handler : exn -> py A) : py A :=
  fun w =>
    match body w with
    | (Raise e, w') => if caught e then handler e w' else (Raise e, w')
    | r => r
    end.

Definition bare : exn -> bool := fun _ => true.

(** The classes that derive from [BaseException] and not from
    [Exception]; [except Exception] lets them through. *)
Definition base_only : list string :=
  ["KeyboardInterrupt"; "SystemExit"; "GeneratorExit"].

Definition is_KeyboardInterrupt (e : exn) : bool :=
  match e with
  | OtherException n => String.eqb n "KeyboardInterrupt"
  | _ => false
  end.

Definition is_Exception (e : exn) : bool :=
  match e with
  | OtherException n => negb (existsb (String.eqb n) base_only)
  | _ => true
  end.

(** [try: body  except <c1>: h1  except <c2> as e: h2 e]: the first
    clause that matches handles the exception, and what a handler raises
    is not handled by the other. *)
Definition try_except2 {A} (body : py A)
    (c1 : exn -> bool) (h1 : exn -> py A)
    (c2 : exn -> bool) (h2 : exn -> py A) : py A :=
  fun w =>
    match body w with
    | (Raise e, w') =>
        if c1 e then h1 e w'
        else if c2 e then h2 e w'
        else (Raise e, w')
    | r => r
    end.

#[global] Instance py_ret : MRet py := @ret.
#[global] Instance py_bind : MBind py := fun A B k m => bind m k.

(** [for x in l: acc = body acc x], an exception ending the loop. *)
Fixpoint for_each {A S} (l : list A) (body : S -> A -> py S) (acc : S)
    : py S :=
  match l with
  | [] => ret acc
  | x :: l' => acc' ← body acc x; for_each l' body acc'
  end.

(** [[f x for x in l]], the calls made in the order of [l]. *)
Fixpoint map_each {A B} (f : A -> py B) (l : list A) : py (list B) :=
  match l with
  | [] => ret []
  | x :: l' => y ← f x; ys ← map_each f l'; ret (y :: ys)
  end.

(** *** Text files *)

(** Writing in text mode turns each line feed into [os.linesep]. *)
Fixpoint translate_out (p : os) (s : string) : string :=
  match s with
  | EmptyString => EmptyString
  | String c s' =>
      if (c =? Py.LF)%char then
        match p with
        | posix => String Py.LF (translate_out p s')
        | nt => String Py.CR (String Py.LF (translate_out p s'))
        end
      else String c (translate_out p s')
  end.

(** Reading in text mode turns [\r\n] and a lone [\r] into a line feed. *)
Fixpoint universal_newlines (s : string) : string :=
  match s with
  | EmptyString => EmptyString
  | String c s' =>
      if (c =? Py.CR)%char then
        String Py.LF
          match s' with
          | String c' s'' =>
              if (c' =? Py.LF)%char then universal_newlines s''
              else universal_newlines s'
          | EmptyString => universal_newlines s'
          end
      else String c (universal_newlines s')
  end.

Section Primitives.
Context (E : environment).

(** [print(line)]. *)
Definition print (line : string) : py unit :=
  fun w => (Return tt,
            World (sent w) (files w) (stdout w ++ [line]) (stdin w) (ticks w)).

(** [input(prompt)]. *)
Definition input (prompt : string) : py string :=
  fun w =>
    match stdin w with
    | [] =>
        (Raise EOFError,
         World (sent w) (files w) (stdout w ++ [prompt]) [] (ticks w))
    | line :: rest =>
        (Return line,
         World (sent w) (files w) (stdout w ++ [prompt]) rest (ticks w))
    end.

(** [requests.get]: the request is recorded, the network answers. *)
Definition requests_get (r : request) : py response :=
  fun w =>
    let w' := World (sent w ++ [r]) (files w) (stdout w) (stdin w) (ticks w) in
    match network E (sent w) r with
    | inl e => (Raise e, w')
    | inr resp => (Return resp, w')
    end.

(** [response.raise_for_status()]. *)
Definition raise_for_status (resp : response) : py unit :=
  if (400 <=? status_code resp) && (status_code resp <? 600)
  then raise (RequestException (pretty (status_code resp) +:+ " Error"))
  else ret tt.

(** [datetime.now().strftime(...)]: one more reading of the clock. *)
Definition now_strftime : py string :=
  fun w => (Return (clock E (ticks w)),
            World (sent w) (files w) (stdout w) (stdin w) (S (ticks w))).

(** [with open(path, 'w') as f: f.write(content)]. *)
Definition write_text (path content : string) : py unit :=
  fun w => (Return tt,
            World (sent w)
                  (<[path := translate_out (platform E) content]> (files w))
                  (stdout w) (stdin w) (ticks w)).

(** [with open(path, 'r') as f: f.read()].  The store holds the regular
    text files there are, and a path outside it is a missing file.  The
    other ways in which [open] fails (a directory, a name too long, a
    file that may not be read) are not states of the store. *)
Definition read_text (path : string) : py string :=
  fun w =>
    match files w !! path with
    | Some content => (Return (universal_newlines content), w)
    | None => (Raise (FileNotFoundError path), w)
    end.

End Primitives.

End Effects.

(** ** class ProxyManager *)
Module ProxyManager.
Import Py Effects.

(** The dictionary keeps the order in which its items are written. *)
Definition PROXY_SOURCES : list (string * string) :=
  [ ("sslproxies", "https://www.sslproxies.org/");
    ("freeproxylist", "https://free-proxy-list.net/");
    ("usproxy", "https://www.us-proxy.org/");
    ("socksproxy", "https://www.socks-proxy.net/");
    ("spysme", "https://spys.me/proxy.txt");
    ("proxydaily", "https://proxy-daily.com/") ].

Definition OUTPUT_DIR : string := "ProxerProxies".
Definition TEST_URL : string := "https://httpbin.org/ip".
Definition TIMEOUT : Z := 5.
Definition MAX_WORKERS : nat := 50.

(** [d.keys()] and [d[k]]. *)
Definition keys (d : list (string * string)) : list string := map fst d.

Fixpoint getitem (d : list (string * string)) (k : string) : py string :=
  match d with
  | [] => raise (KeyError k)
  | (k', v) :: d' => if String.eqb k' k then ret v else getitem d' k
  end.

(** [Path(dir) / name]: an absolute [name] replaces [dir].  The store of
    files is keyed by the resulting string. *)
Definition path_div (dir name : string) : string :=
  if startswith "/" name then name else dir +:+ "/" +:+ name.

(** colorama's escape sequences. *)
Definition Fore_RED : string := String ESC "[31m".
Definition Fore_GREEN : string := String ESC "[32m".
Definition Fore_YELLOW : string := String ESC "[33m".
Definition Fore_CYAN : string := String ESC "[36m".
Definition Style_RESET_ALL : string := String ESC "[0m".

(** *** [repr]

    [repr] of a string puts it between single quotes, or between double
    quotes when it holds a single quote and no double quote; inside, the
    quote in use and the backslash are escaped with a backslash, tab,
    line feed and carriage return are written [\t], [\n] and [\r], and
    every other character that is not printable is written [\xhh]. *)
Definition backslash : ascii := "092"%char.
Definition squote : ascii := "039"%char.
Definition dquote : ascii := "034"%char.
Definition TAB : ascii := "009"%char.

(** [str.isprintable] on one character below code point 256: not the
    control characters (0 to 31, 127 to 159), nor the no-break space
    (160), nor the soft hyphen (173). *)
Definition is_printable (c : ascii) : bool :=
  let n := nat_of_ascii c in
  ((32 <=? n)%nat && (n <? 127)%nat) ||
  ((160 <? n)%nat && negb (n =? 173)%nat).

Definition hexdigit (n : nat) : ascii :=
  default "0"%char (String.get n "0123456789abcdef").

Definition hex_escape (c : ascii) : string :=
  let n := nat_of_ascii c in
  String backslash
    (String "x"
       (String (hexdigit (n / 16)%nat)
          (String (hexdigit (n mod 16)%nat) EmptyString))).

Definition repr_char (quote c : ascii) : string :=
  if (c =? quote)%char || (c =? backslash)%char
  then String backslash (String c EmptyString)
  else if (c =? TAB)%char then String backslash "t"
  else if (c =? LF)%char then String backslash "n"
  else if (c =? CR)%char then String backslash "r"
  else if is_printable c then String c EmptyString
  else hex_escape c.

Fixpoint has_char (c : ascii) (s : string) : bool :=
  match s with
  | EmptyString => false
  | String a s' => (a =? c)%char || has_char c s'
  end.

Definition repr_quote (s : string) : ascii :=
  if has_char squote s && negb (has_char dquote s) then dquote else squote.

Fixpoint repr_body (quote : ascii) (s : string) : string :=
  match s with
  | EmptyString => EmptyString
  | String c s' => repr_char quote c +:+ repr_body quote s'
  end.

Definition repr_str (s : string) : string :=
  let quote := repr_quote s in
  String quote (repr_body quote s +:+ String quote EmptyString).

(** [repr] of a set of strings: its members in the sequence in which the
    set is gone through, or [set()] when it has none. *)
Definition repr_set (s : gset string) : string :=
  match elements s with
  | [] => "set()"
  | members => "{" +:+ join ", " (map repr_str members) +:+ "}"
  end.

(** The patterns of [parse_spysme] and [parse_html_table]. *)
Definition ip_regex : regex :=
  Seq [Plus Digit; Lit "."; Plus Digit; Lit "."; Plus Digit; Lit ".";
       Plus Digit].

Definition ip_port_regex : regex :=
  Seq [Plus Digit; Lit "."; Plus Digit; Lit "."; Plus Digit; Lit ".";
       Plus Digit; Lit ":"; Plus Digit].

Section Methods.
Context (E : environment).

Definition get_timestamp : py string := now_strftime E.

(** [proxies] is the sequence in which the argument is iterated; the
    method ends without a [return], so that its value is [None]
    although it is annotated [-> Path]. *)
Definition save_proxies (proxies : list string) (prefix : string)
    : py (option string) :=
  timestamp ← get_timestamp;
  let file_path := path_div OUTPUT_DIR (prefix +:+ "_" +:+ timestamp +:+ ".txt") in
  write_text E file_path (join nl proxies);;
  print (Fore_GREEN +:+ "Proxies saved to " +:+ file_path +:+ Style_RESET_ALL);;
  ret None.

Definition save_valid_proxies (proxies : list string) (prefix : string)
    : py (option string) :=
  timestamp ← get_timestamp;
  let file_path := path_div OUTPUT_DIR (prefix +:+ "_" +:+ timestamp +:+ ".txt") in
  write_text E file_path
    (fold_left (fun f proxy => f +:+ proxy +:+ nl) proxies EmptyString);;
  print (Fore_GREEN +:+ "Valid proxies saved to " +:+ file_path +:+ Style_RESET_ALL);;
  ret None.

Definition parse_spysme (response_text : string) : gset string :=
  list_to_set (filter (fun proxy => re_match ip_port_regex proxy = true)
                      (splitlines response_text)).

(** [soup] is given by the cells of its rows; [columns[1]] raises
    [IndexError] on a row of one cell. *)
Definition parse_html_table (soup : list (list string)) : py (gset string) :=
  for_each soup
    (fun proxies columns =>
       match columns with
       | [] => ret proxies
       | c0 :: rest =>
           if re_match ip_regex c0 then
             match rest with
             | [] => raise IndexError
             | c1 :: _ =>
                 if isdigit c1
                 then ret (proxies ∪ {[ c0 +:+ ":" +:+ c1 ]})
                 else ret proxies
             end
           else ret proxies
       end)
    ∅.

Definition get_proxies (sources : option (list string)) : py (gset string) :=
  let sources :=
    match sources with
    | None => keys PROXY_SOURCES
    | Some l => l
    end in
  let invalid_sources : gset string :=
    list_to_set sources ∖ list_to_set (keys PROXY_SOURCES) in
  if decide (invalid_sources = ∅) then
    proxies ←
      for_each sources
        (fun proxies source =>
           try_except
             (url ← getitem PROXY_SOURCES source;
              response ← requests_get E (Request url None None);
              raise_for_status response;;
              if String.eqb source "spysme"
              then ret (proxies ∪ parse_spysme (text response))
              else
                found ← parse_html_table (html_rows E (text response));
                ret (proxies ∪ found))
             is_RequestException
             (fun e =>
                print (Fore_RED +:+ "Error fetching from " +:+ source +:+
                       ": " +:+ exn_str e +:+ Style_RESET_ALL);;
                ret proxies))
        ∅;
    save_proxies (elements proxies) EmptyString;;
    ret proxies
  else
    raise (ValueError
             ("Invalid sources specified: " +:+ repr_set invalid_sources)).

(** The [try] block either returns [True] from inside or falls through
    ([None]); the bare [except] swallows every exception. *)
Definition test_proxy (proxy : string) : py bool :=
  returned ←
    try_except
      (response ←
         requests_get E (Request TEST_URL (Some proxy) (Some TIMEOUT));
       if (status_code response =? 200) && str_in "origin" (text response)
       then
         print (Fore_GREEN +:+ "Working proxy: " +:+ proxy +:+ Style_RESET_ALL);;
         ret (Some true)
       else ret None)
      bare
      (fun _ => ret None);
  match returned with
  | Some b => ret b
  | None =>
      print (Fore_RED +:+ "Invalid proxy: " +:+ proxy +:+ Style_RESET_ALL);;
      ret false
  end.

(** The loop over [zip(proxies, results)]. *)
Definition collect_valid (pairs : list (string * bool)) : list string :=
  fold_left
    (fun valid '(proxy, is_working) =>
       if (is_working : bool) then valid ++ [proxy] else valid)
    pairs [].

(** The set is iterated twice, by [executor.map] and by [zip]; it is
    not changed in between and both iterations go through it in the
    same sequence, [elements proxies].  The results of [executor.map]
    come in the sequence of its input; the calls are made here in that
    sequence too: how the pool of [MAX_WORKERS] threads interleaves them
    is not part of the embedding. *)
Definition filter_proxies (proxies : gset string) : py (list string) :=
  results ← map_each test_proxy (elements proxies);
  ret (collect_valid (zip (elements proxies) results)).

End Methods.

End ProxyManager.

(** ** class ProxyCLI *)
Module ProxyCLI.
Import Py Effects ProxyManager.

Section Methods.
Context (E : environment).

Definition get_proxies_menu : py unit :=
  print (Fore_CYAN +:+ "Select The Source" +:+ Style_RESET_ALL);;
  choice ← input (Fore_CYAN +:+ "1- sslproxies" +:+ nl +:+ "2- freeproxylist"
                  +:+ nl +:+ "3- ALL" +:+ nl +:+ ">> " +:+ Style_RESET_ALL);
  let sources_map : list (string * list string) :=
    [ ("1", ["sslproxies"]);
      ("2", ["freeproxylist"]);
      ("3", keys PROXY_SOURCES) ] in
  match snd <$> find (fun kv => String.eqb (fst kv) choice) sources_map with
  | None => raise (ValueError (Fore_RED +:+ "Invalid choice" +:+ Style_RESET_ALL))
  | Some sources =>
      proxies ← get_proxies E (Some sources);
      print (Fore_GREEN +:+ "Collected " +:+ pretty (size proxies) +:+
             " proxies from selected sources." +:+ Style_RESET_ALL)
  end.

(** The [try] block of [check_proxies_menu]: the lines of the file, as
    a set. *)
Definition read_proxy_file (file_path : string) : py (gset string) :=
  try_except
    (f ← read_text file_path; ret (list_to_set (splitlines f)))
    is_FileNotFoundError
    (fun _ => raise (ValueError (Fore_RED +:+ "File not found." +:+ Style_RESET_ALL))).

Definition check_proxies_menu : py unit :=
  file_path ← input (Fore_CYAN +:+ "Enter the path to the proxy file: "
                     +:+ Style_RESET_ALL);
  proxies ← read_proxy_file file_path;
  working_proxies ← filter_proxies E proxies;
  print (Fore_GREEN +:+ "Found " +:+ pretty (length working_proxies) +:+
         " working proxies." +:+ Style_RESET_ALL);;
  save_proxies E working_proxies "working_proxies";;
  ret tt.

End Methods.

(** [str(e)] for what [run] and [main] print. *)
Definition str_of_exn (e : exn) : string :=
  match e with
  | KeyError k => repr_str k
  | FileNotFoundError p =>
      "[Errno 2] No such file or directory: " +:+ repr_str p
  | EOFError => "EOF when reading a line"
  | _ => exn_str e
  end.

Section Run.
Context (E : environment).

(** The banner is drawn with characters above code point 255: it is a
    parameter. *)
Context (BANNER : string).

(** [os.system('cls' if os.name == 'nt' else 'clear')] acts on the
    display of the terminal, which the world does not hold. *)
Definition clear_screen : py unit := ret tt.

(** The prompt is read outside the [try]; what the menus raise inside it
    is printed when it is an [Exception]. *)
Definition run : py unit :=
  clear_screen;;
  print BANNER;;
  print (Fore_CYAN +:+ "Select What you need <3" +:+ Style_RESET_ALL);;
  choice ← input (Fore_CYAN +:+ "1- Get Proxies" +:+ nl +:+ "2- Check Proxies"
                  +:+ nl +:+ ">> " +:+ Style_RESET_ALL);
  try_except
    (if String.eqb choice "1" then get_proxies_menu E
     else if String.eqb choice "2" then check_proxies_menu E
     else raise (ValueError (Fore_RED +:+ "Invalid choice" +:+ Style_RESET_ALL)))
    is_Exception
    (fun e => print (str_of_exn e)).

(** [ProxyCLI()] builds a [ProxyManager], whose [__init__] sets colorama
    up and makes sure the output directory exists; the world holds no
    directories, and the construction leaves it unchanged. *)
Definition main : py unit :=
  try_except2 run
    is_KeyboardInterrupt
    (fun _ =>
       print (nl +:+ Fore_YELLOW +:+ "Program terminated by user" +:+
              Style_RESET_ALL))
    is_Exception
    (fun e =>
       print (Fore_RED +:+ "An unexpected error occurred: " +:+
              str_of_exn e +:+ Style_RESET_ALL)).

End Run.

End ProxyCLI.

(** ** What a run lets one observe *)
Module Observe.
Import Py Effects ProxyManager.

#[global] Instance request_eq_dec : EqDecision request.
Proof. solve_decision. Defined.

(** The request a probe of [proxy] sends. *)
Definition probe_request (proxy : string) : request :=
  Request TEST_URL (Some proxy) (Some TIMEOUT).

(** Working ([true]) or Failed ([false]), from what the network answered. *)
Definition probe_outcome (answer : exn + response) : bool :=
  match answer with
  | inl _ => false
  | inr resp => (status_code resp =? 200) && str_in "origin" (text resp)
  end.

(** The network's side of a run over the endpoints [l], given the
    requests [hist] it has seen: each endpoint with the outcome of the
    answer its request gets. *)
Fixpoint outcomes (E : environment) (hist : list request) (l : list string)
    : list (string * bool) :=
  match l with
  | [] => []
  | p :: l' =>
      (p, probe_outcome (network E hist (probe_request p)))
        :: outcomes E (hist ++ [probe_request p]) l'
  end.

(** The requests sent between two worlds, and how many of them are
    probes of [e]. *)
Definition issued (w w' : world) : list request :=
  drop (length (sent w)) (sent w').

Definition probes_of (e : string) (w w' : world) : nat :=
  length (filter (fun r => r = probe_request e) (issued w w')).

(** [p] occurs in [s]. *)
Definition contains (p s : string) : Prop :=
  exists pre post, s = pre +:+ p +:+ post.

(** A string that survives being written as one line of a text file:
    it is not empty and has no line boundary in it. *)
Definition no_linebreak (s : string) : bool :=
  all_chars (fun c => negb (is_linebreak c)) s.

Definition no_cr (s : string) : bool :=
  all_chars (fun c => negb (c =? CR)%char) s.

Definition line_safe (s : string) : Prop :=
  s <> EmptyString /\ no_linebreak s = true.

(** The format of an endpoint, [^\d{1,3}\.\d{1,3}\.\d{1,3}\.\d{1,3}:\d+$]. *)
Definition endpoint_regex : regex :=
  Seq [Upto3 Digit; Lit "."; Upto3 Digit; Lit "."; Upto3 Digit; Lit ".";
       Upto3 Digit; Lit ":"; Plus Digit].

Definition is_endpoint (s : string) : bool := re_match endpoint_regex s.

(** The file [save_proxies] writes when the clock reads [timestamp]. *)
Definition saved_path (prefix timestamp : string) : string :=
  path_div OUTPUT_DIR (prefix +:+ "_" +:+ timestamp +:+ ".txt").

(** The body of the loop of [get_proxies] over its sources. *)
Definition fetch_source (E : environment) (proxies : gset string)
    (source : string) : py (gset string) :=
  try_except
    (url ← getitem PROXY_SOURCES source;
     response ← requests_get E (Request url None None);
     raise_for_status response;;
     if String.eqb source "spysme"
     then ret (proxies ∪ parse_spysme (text response))
     else
       found ← parse_html_table (html_rows E (text response));
       ret (proxies ∪ found))
    is_RequestException
    (fun e =>
       print (Fore_RED +:+ "Error fetching from " +:+ source +:+
              ": " +:+ exn_str e +:+ Style_RESET_ALL);;
       ret proxies).

(** A string that [repr] writes as it is, between single quotes: its
    characters are printable, and none is a single quote or a backslash. *)
Definition plain (s : string) : bool :=
  all_chars
    (fun c => is_printable c && negb (c =? squote)%char &&
              negb (c =? backslash)%char)
    s.

(** The request [get_proxies] sends for a source: one whose address the
    dictionary gives for it. *)
Definition fetches (source : string) (r : request) : Prop :=
  exists url, (source, url) ∈ PROXY_SOURCES /\ r = Request url None None.

(** A row of a table on which [columns[1]] fails: one cell, an address. *)
Definition short_row (columns : list string) : Prop :=
  exists c0, columns = [c0] /\ re_match ip_regex c0 = true.

(** A row of a table that gives the proxy [p]. *)
Definition row_gives (columns : list string) (p : string) : Prop :=
  exists c0 c1 rest,
    columns = c0 :: c1 :: rest /\
    re_match ip_regex c0 = true /\ isdigit c1 = true /\
    p = c0 +:+ ":" +:+ c1.

(** The status codes on which [raise_for_status] raises. *)
Definition is_error_status (code : Z) : bool :=
  (400 <=? code) && (code <? 600).

(** The exceptions of the classes the program names; each of these
    classes derives from [Exception], and [str_of_exn] gives its text. *)
Definition own_exception (e : exn) : bool :=
  match e with
  | OtherException _ => false
  | _ => true
  end.

(** The world in which [run] enters its [try]: the banner and the two
    prompts are printed and the first line typed is read. *)
Definition run_prompted (BANNER : string) (w : world) : world :=
  World (sent w) (files w)
        (stdout w ++
           [BANNER;
            Fore_CYAN +:+ "Select What you need <3" +:+ Style_RESET_ALL;
            Fore_CYAN +:+ "1- Get Proxies" +:+ nl +:+ "2- Check Proxies"
            +:+ nl +:+ ">> " +:+ Style_RESET_ALL])
        (tail (stdin w)) (ticks w).

(** What [run] does inside its [try], on the choice typed. *)
Definition run_menu (E : environment) (choice : string) : py unit :=
  if String.eqb choice "1" then ProxyCLI.get_proxies_menu E
  else if String.eqb choice "2" then ProxyCLI.check_proxies_menu E
  else raise (ValueError (Fore_RED +:+ "Invalid choice" +:+ Style_RESET_ALL)).

(** The world after one more line printed. *)
Definition printed (line : string) (w : world) : world :=
  World (sent w) (files w) (stdout w ++ [line]) (stdin w) (ticks w).

(** An answer of the network that [get_proxies] takes as a failure of
    the source: a [RequestException], or a status that
    [raise_for_status] turns into one. *)
Definition request_fails (answer : exn + response) : bool :=
  match answer with
  | inl e => is_RequestException e
  | inr resp => is_error_status (status_code resp)
  end.

(** The cells of the tables hold no line boundary. *)
Definition clean_cells (E : environment) : Prop :=
  forall page columns c,
    columns ∈ html_rows E page -> c ∈ columns -> no_linebreak c = true.

End Observe.

(** ** Scenarios *)
Module Scenarios.
Import Py Effects ProxyManager Observe.

Definition origin_body : string := "{ origin: 203.0.113.5 }".

(** A network on which every request comes back with status 200 and an
    origin in its body. *)
Definition open_network : environment :=
  Environment (fun _ _ => inr (Response 200 origin_body))
              (fun _ => "2024-01-01-10-00-00AM") (fun _ => []) posix.

(** The test target answers through 203.0.113.5:8080 and times out
    through any other proxy. *)
Definition one_proxy_up : environment :=
  Environment
    (fun _ r =>
       if decide (req_proxies r = Some "203.0.113.5:8080")
       then inr (Response 200 origin_body)
       else inl (RequestException "timed out"))
    (fun _ => "2024-01-01-10-00-00AM") (fun _ => []) nt.

(** A captive portal: status 200, no origin. *)
Definition captive_portal : environment :=
  Environment (fun _ _ => inr (Response 200 "<html>Sign in</html>"))
              (fun _ => "2024-01-01-10-00-00AM") (fun _ => []) posix.

Definition two_candidates : gset string :=
  {[ "203.0.113.5:8080"; "198.51.100.7:3128" ]}.

(** Every request fails to connect. *)
Definition all_down : environment :=
  Environment (fun _ _ => inl (RequestException "connection refused"))
              (fun _ => "2024-01-01-10-00-00AM") (fun _ => []) posix.

(** The sources answer with a list of two lines, one of them a proxy. *)
Definition spys_answers : environment :=
  Environment
    (fun _ _ => inr (Response 200 ("203.0.113.5:8080" +:+ nl +:+ "Free proxies")))
    (fun _ => "2024-01-01-10-00-00AM") (fun _ => []) nt.

(** The pages hold a table with a row of one cell. *)
Definition broken_table : environment :=
  Environment (fun _ _ => inr (Response 200 "<table>"))
              (fun _ => "2024-01-01-10-00-00AM")
              (fun _ => [["203.0.113.5"; "8080"]; ["198.51.100.7"]]) posix.

(** A world in which the user types the name of a file of two
    candidates, one of them twice. *)
Definition candidates_file : world :=
  World [] {[ "list.txt" := "203.0.113.5:8080" +:+ nl +:+ "198.51.100.7:3128"
                            +:+ nl +:+ "203.0.113.5:8080" +:+ nl ]}
        [] ["list.txt"] 0.

(** The user presses Ctrl-C while a source is being fetched. *)
Definition interrupted : environment :=
  Environment (fun _ _ => inl (OtherException "KeyboardInterrupt"))
              (fun _ => "2024-01-01-10-00-00AM") (fun _ => []) posix.

End Scenarios.

Import Py Effects ProxyManager ProxyCLI Observe.

(** * Properties *)

(** Unfolds the sequencing of the monad. *)
Ltac unfold_py := unfold mbind, py_bind, bind.
Ltac unfold_py_in H := unfold mbind, py_bind, bind in H.

(** ** The probe *)

Lemma test_proxy_run E proxy w :
  test_proxy E proxy w =
    let b := probe_outcome (network E (sent w) (probe_request proxy)) in
    (Return b,
     World (sent w ++ [probe_request proxy]) (files w)
           (stdout w ++
              [if b
               then Fore_GREEN +:+ "Working proxy: " +:+ proxy +:+ Style_RESET_ALL
               else Fore_RED +:+ "Invalid proxy: " +:+ proxy +:+ Style_RESET_ALL])
           (stdin w) (ticks w)).
Proof.
  unfold test_proxy, mbind, py_bind, bind, try_except, requests_get,
    probe_outcome, probe_request.
  destruct (network E (sent w) _) as [e|resp]; simpl; [reflexivity|].
  destruct ((status_code resp =? 200) && str_in "origin" (text resp));
    reflexivity.
Qed.

Lemma startswith_spec p s :
  startswith p s = true <-> exists post, s = p +:+ post.
Proof.
  revert s. induction p as [|a p IH]; intros s; simpl.
  - split; [intros _; by exists s | done].
  - destruct s as [|b s]; simpl.
    + split; [done | intros [post H]; discriminate].
    + rewrite andb_true_iff, IH, Ascii.eqb_eq. split.
      * intros [-> [post ->]]. by exists post.
      * intros [post H]. injection H as -> ->. split; [done | by exists post].
Qed.

Lemma str_in_spec p s : str_in p s = true <-> contains p s.
Proof.
  unfold contains. induction s as [|c s IH]; simpl.
  - rewrite orb_false_r, startswith_spec. split.
    + intros [post H]. by exists EmptyString, post.
    + intros [[|a pre] [post H]]; [by exists post | discriminate].
  - rewrite orb_true_iff, startswith_spec, IH. split.
    + intros [[post H] | (pre & post & ->)].
      * by exists EmptyString, post.
      * by exists (String c pre), post.
    + intros [[|a pre] [post H]].
      * left. by exists post.
      * right. simpl in H. injection H as -> ->. by exists pre, post.
Qed.

(** C2: the probe answers Working exactly when the network returned a
    response with status 200 whose body contains the word origin; a
    response with status 200 and no origin in its body gives Failed. *)
Theorem test_proxy_working_iff E proxy w :
  ((test_proxy E proxy w).1 = Return true <->
   exists resp,
     network E (sent w) (probe_request proxy) = inr resp /\
     status_code resp = 200 /\ contains "origin" (text resp)) /\
  (forall resp,
     network E (sent w) (probe_request proxy) = inr resp ->
     status_code resp = 200 ->
     ~ contains "origin" (text resp) ->
     (test_proxy E proxy w).1 = Return false).
Proof.
  rewrite test_proxy_run. simpl. split; [split|].
  - intros H. injection H as H.
    destruct (network E (sent w) (probe_request proxy)) as [e|resp];
      simpl in H; [discriminate|].
    apply andb_true_iff in H as [Hs Ho].
    exists resp. split; [done|]. split; [by apply Z.eqb_eq | by apply str_in_spec].
  - intros (resp & -> & Hs & Ho). simpl.
    apply str_in_spec in Ho. rewrite Ho. apply Z.eqb_eq in Hs. by rewrite Hs.
  - intros resp -> Hs Ho. simpl. f_equal.
    apply andb_false_iff. right. apply not_true_is_false.
    intros H. by apply Ho, str_in_spec.
Qed.

Example test_proxy_captive_portal :
  (test_proxy Scenarios.captive_portal "203.0.113.5:8080" (initial_world [])).1
  = Return false.
Proof. reflexivity. Qed.

(** C3: the probe returns a boolean whatever the network does, and that
    boolean is [False] whenever the request raised, whatever the class of
    the exception. *)
Theorem test_proxy_never_raises E proxy w :
  (exists b, (test_proxy E proxy w).1 = Return b) /\
  (forall e,
     network E (sent w) (probe_request proxy) = inl e ->
     (test_proxy E proxy w).1 = Return false).
Proof.
  rewrite test_proxy_run. simpl. split.
  - by eexists.
  - by intros e ->.
Qed.

Example test_proxy_timeout :
  (test_proxy Scenarios.one_proxy_up "198.51.100.7:3128" (initial_world [])).1
  = Return false.
Proof. reflexivity. Qed.

(** ** The validator *)

Lemma outcomes_fst E hist l : (outcomes E hist l).*1 = l.
Proof.
  revert hist. induction l as [|p l IH]; intros hist; simpl; [done|].
  by rewrite IH.
Qed.

Lemma outcomes_length E hist l : length (outcomes E hist l) = length l.
Proof. by rewrite <- (length_fmap fst), outcomes_fst. Qed.

Lemma zip_fst_snd {A B} (l : list (A * B)) : zip (l.*1) (l.*2) = l.
Proof. induction l as [|[a b] l IH]; [done | simpl; by f_equal]. Qed.

Lemma map_each_test_proxy E l w :
  exists w',
    map_each (test_proxy E) l w = (Return ((outcomes E (sent w) l).*2), w') /\
    sent w' = sent w ++ (probe_request <$> l) /\
    files w' = files w /\ stdin w' = stdin w /\ ticks w' = ticks w.
Proof.
  revert w. induction l as [|p l IH]; intros w; simpl.
  - exists w. by rewrite app_nil_r.
  - unfold_py. rewrite test_proxy_run. simpl.
    match goal with |- context [map_each _ l ?w0] =>
      destruct (IH w0) as (w' & -> & Hs & Hf & Hi & Ht) end.
    simpl in *. exists w'. split; [done|].
    rewrite Hs, <- app_assoc. done.
Qed.

Lemma collect_valid_from (acc : list string) pairs :
  fold_left
    (fun valid '(proxy, is_working) =>
       if (is_working : bool) then valid ++ [proxy] else valid)
    pairs acc
  = acc ++ (filter (fun pr => snd pr = true) pairs).*1.
Proof.
  revert acc. induction pairs as [|[p b] pairs IH]; intros acc; simpl.
  - by rewrite app_nil_r.
  - rewrite IH. destruct b.
    + rewrite filter_cons_True by done. simpl. by rewrite <- app_assoc.
    + rewrite filter_cons_False by done. done.
Qed.

Lemma collect_valid_spec pairs :
  collect_valid pairs = (filter (fun pr => snd pr = true) pairs).*1.
Proof. unfold collect_valid. by rewrite collect_valid_from. Qed.

Lemma elem_of_collect_valid e pairs :
  e ∈ collect_valid pairs <-> (e, true) ∈ pairs.
Proof.
  rewrite collect_valid_spec, list_elem_of_fmap. split.
  - intros ([p b] & -> & H). apply list_elem_of_filter in H as [Hb H].
    simpl in *. by subst.
  - intros H. exists (e, true). split; [done|].
    by apply list_elem_of_filter.
Qed.

(** A run of the validator: it returns, its result is read off the
    outcomes of the run, and it has sent one probe per element of the
    set, in the sequence of the set. *)
Lemma filter_proxies_run E (C : gset string) w :
  exists w',
    filter_proxies E C w
      = (Return (collect_valid (outcomes E (sent w) (elements C))), w') /\
    sent w' = sent w ++ (probe_request <$> elements C) /\
    files w' = files w.
Proof.
  unfold filter_proxies. unfold_py.
  destruct (map_each_test_proxy E (elements C) w) as (w' & -> & Hs & Hf & _).
  exists w'. unfold ret. split; [|done].
  do 3 f_equal.
  rewrite <- (outcomes_fst E (sent w) (elements C)) at 1.
  apply zip_fst_snd.
Qed.

Lemma elem_of_outcomes E hist l e b :
  (e, b) ∈ outcomes E hist l -> e ∈ l.
Proof.
  intros H. rewrite <- (outcomes_fst E hist l).
  apply list_elem_of_fmap. by exists (e, b).
Qed.

(** C1: the validator returns, and every endpoint it returns is a member
    of the candidate set whose probe came out Working in this run. *)
Theorem filter_proxies_subset E (C : gset string) w :
  exists valid,
    (filter_proxies E C w).1 = Return valid /\
    forall e, e ∈ valid ->
      e ∈ C /\ (e, true) ∈ outcomes E (sent w) (elements C).
Proof.
  destruct (filter_proxies_run E C w) as (w' & -> & _).
  eexists. split; [done|]. intros e He.
  apply elem_of_collect_valid in He. split; [|done].
  apply elem_of_elements. by eapply elem_of_outcomes.
Qed.

Example filter_proxies_end_to_end :
  (filter_proxies Scenarios.one_proxy_up Scenarios.two_candidates
     (initial_world [])).1
  = Return ["203.0.113.5:8080"].
Proof. vm_compute. reflexivity. Qed.

Lemma issued_app w w' l : sent w' = sent w ++ l -> issued w w' = l.
Proof. unfold issued. intros ->. by rewrite drop_app_length. Qed.

Lemma count_probe_requests e (l : list string) :
  length (filter (fun r => r = probe_request e) (probe_request <$> l))
  = length (filter (fun x => x = e) l).
Proof.
  induction l as [|p l IH]; [done|]. rewrite fmap_cons.
  destruct (decide (p = e)) as [->|Hne].
  - rewrite !filter_cons_True by done. simpl. by rewrite IH.
  - rewrite !filter_cons_False; [done | done |].
    intros H. injection H as H. done.
Qed.

Lemma count_NoDup (e : string) (l : list string) :
  NoDup l ->
  length (filter (fun x => x = e) l) = if decide (e ∈ l) then 1%nat else 0%nat.
Proof.
  induction 1 as [|p l Hp Hl IH]; [done|].
  destruct (decide (p = e)) as [->|Hne].
  - rewrite filter_cons_True by done. simpl. rewrite IH.
    rewrite decide_False by done. rewrite decide_True by left. done.
  - rewrite filter_cons_False by done. rewrite IH.
    destruct (decide (e ∈ l)) as [Hin|Hnin].
    + rewrite decide_True by (by right). done.
    + rewrite decide_False; [done|].
      intros [Heq|Hin]%elem_of_cons; [by apply Hne | by apply Hnin].
Qed.

Lemma outcomes_of_absent E hist l (e : string) :
  e ∉ l -> filter (fun pr => pr.1 = e) (outcomes E hist l) = [].
Proof.
  revert hist. induction l as [|p l IH]; intros hist Hn; simpl; [done|].
  apply not_elem_of_cons in Hn as [Hne Hn].
  rewrite filter_cons_False by (simpl; congruence). by apply IH.
Qed.

Lemma outcomes_of_member E hist l (e : string) :
  NoDup l -> e ∈ l ->
  exists b, filter (fun pr => pr.1 = e) (outcomes E hist l) = [(e, b)].
Proof.
  intros Hnd. revert hist.
  induction Hnd as [|p l Hp Hl IH]; intros hist He; [by apply elem_of_nil in He|].
  simpl. destruct (decide (p = e)) as [->|Hne].
  - eexists. rewrite filter_cons_True by done.
    by rewrite outcomes_of_absent.
  - apply elem_of_cons in He as [->|He]; [done|].
    rewrite filter_cons_False by done. by apply IH.
Qed.

Lemma probes_of_run (C : gset string) w w' e :
  sent w' = sent w ++ (probe_request <$> elements C) ->
  probes_of e w w' = if decide (e ∈ C) then 1%nat else 0%nat.
Proof.
  intros Hs. unfold probes_of. rewrite (issued_app _ _ _ Hs).
  rewrite count_probe_requests, count_NoDup by apply NoDup_elements.
  destruct (decide (e ∈ C)) as [Hin|Hnin].
  - rewrite decide_True; [done | by apply elem_of_elements].
  - rewrite decide_False; [done | by rewrite elem_of_elements].
Qed.

Lemma valid_iff_outcome E hist l (e : string) b :
  filter (fun pr => pr.1 = e) (outcomes E hist l) = [(e, b)] ->
  e ∈ collect_valid (outcomes E hist l) <-> b = true.
Proof.
  intros Hf. rewrite elem_of_collect_valid. split.
  - intros H.
    assert (Hin : (e, true) ∈ filter (fun pr => pr.1 = e) (outcomes E hist l))
      by (by apply list_elem_of_filter).
    rewrite Hf in Hin. apply list_elem_of_singleton in Hin. congruence.
  - intros ->.
    assert (Hin : (e, true) ∈ filter (fun pr => pr.1 = e) (outcomes E hist l))
      by (rewrite Hf; by apply list_elem_of_singleton).
    by apply list_elem_of_filter in Hin as [_ Hin].
Qed.

(** C4: in a run over the set [C] the validator sends exactly one probe
    for each member of [C] and none for any other endpoint; each member
    has exactly one outcome in the run, and it is returned exactly when
    that outcome is Working. *)
Theorem filter_proxies_one_outcome_each E (C : gset string) w :
  exists valid w',
    filter_proxies E C w = (Return valid, w') /\
    length (outcomes E (sent w) (elements C)) = size C /\
    (forall e, probes_of e w w' = if decide (e ∈ C) then 1%nat else 0%nat) /\
    (forall e, e ∈ C ->
       exists b,
         filter (fun pr => pr.1 = e) (outcomes E (sent w) (elements C))
           = [(e, b)] /\
         (e ∈ valid <-> b = true)).
Proof.
  destruct (filter_proxies_run E C w) as (w' & Hrun & Hs & _).
  eexists _, w'. split; [exact Hrun|]. split; [apply outcomes_length|].
  split.
  - intros e. by apply probes_of_run.
  - intros e He.
    destruct (outcomes_of_member E (sent w) (elements C) e) as [b Hb].
    + apply NoDup_elements.
    + by apply elem_of_elements.
    + exists b. split; [done|]. by apply valid_iff_outcome.
Qed.

(** C5 (as stated, refuted): the entry [not-an-ip] does not have the
    format of an endpoint, and yet the validator probes it and, on a
    network that answers it, returns it. *)
Lemma filter_proxies_probes_malformed :
  let w := initial_world [] in
  let r := filter_proxies Scenarios.open_network {[ "not-an-ip" ]} w in
  is_endpoint "not-an-ip" = false /\
  probes_of "not-an-ip" w r.2 = 1%nat /\
  r.1 = Return ["not-an-ip"].
Proof. vm_compute. done. Qed.

(** C5 (amended): the validator checks no format.  An entry of the input
    set that does not have the format of an endpoint is probed once like
    any other, the run returns, and the entry is returned exactly when
    its probe came out Working. *)
Theorem filter_proxies_no_format_check E (C : gset string) w s :
  s ∈ C ->
  is_endpoint s = false ->
  exists valid w',
    filter_proxies E C w = (Return valid, w') /\
    probes_of s w w' = 1%nat /\
    (s ∈ valid <-> (s, true) ∈ outcomes E (sent w) (elements C)).
Proof.
  intros Hs _.
  destruct (filter_proxies_run E C w) as (w' & Hrun & Hsent & _).
  eexists _, w'. split; [exact Hrun|]. split.
  - rewrite (probes_of_run C w w' s Hsent). by rewrite decide_True.
  - apply elem_of_collect_valid.
Qed.

Lemma filter_proxies_no_format_check_witness :
  exists valid w',
    filter_proxies Scenarios.captive_portal {[ "not-an-ip" ]} (initial_world [])
      = (Return valid, w') /\
    probes_of "not-an-ip" (initial_world []) w' = 1%nat /\
    ("not-an-ip" ∈ valid <->
     ("not-an-ip", true)
       ∈ outcomes Scenarios.captive_portal (sent (initial_world []))
           (elements ({[ "not-an-ip" ]} : gset string))).
Proof.
  apply (filter_proxies_no_format_check Scenarios.captive_portal
           {[ "not-an-ip" ]} (initial_world []) "not-an-ip").
  - vm_compute. reflexivity.
  - vm_compute. reflexivity.
Defined.

(** C6: on the empty set the validator returns the empty list and leaves
    the world as it was: no request is sent. *)
Theorem filter_proxies_empty E w :
  filter_proxies E ∅ w = (Return [], w).
Proof.
  unfold filter_proxies. rewrite elements_empty. reflexivity.
Qed.

(** ** The text artifact *)

Lemma append_nil_l (b : string) : EmptyString +:+ b = b.
Proof. reflexivity. Qed.

Lemma append_cons c (a b : string) : String c a +:+ b = String c (a +:+ b).
Proof. reflexivity. Qed.

Lemma append_assoc (a b c : string) : (a +:+ b) +:+ c = a +:+ b +:+ c.
Proof.
  induction a as [|x a IH]; [done|]. by rewrite !append_cons, IH.
Qed.

Lemma append_nil_r (a : string) : a +:+ EmptyString = a.
Proof.
  induction a as [|x a IH]; [done|]. by rewrite append_cons, IH.
Qed.

Lemma all_chars_app p (a b : string) :
  all_chars p (a +:+ b) = all_chars p a && all_chars p b.
Proof.
  induction a as [|x a IH]; [done|].
  rewrite append_cons. simpl. by rewrite IH, andb_assoc.
Qed.

Lemma no_linebreak_no_cr s : no_linebreak s = true -> no_cr s = true.
Proof.
  unfold no_linebreak, no_cr. induction s as [|c s IH]; simpl; [done|].
  intros [Hc Hs]%andb_true_iff. rewrite IH by done.
  unfold is_linebreak in Hc. destruct (c =? CR)%char; [|done].
  by rewrite !orb_true_r in Hc.
Qed.

Lemma no_cr_join l :
  Forall (fun s => no_linebreak s = true) l -> no_cr (join nl l) = true.
Proof.
  induction 1 as [|x l Hx Hl IH]; [done|].
  destruct l as [|y l]; simpl.
  - by apply no_linebreak_no_cr.
  - pose proof (no_linebreak_no_cr x Hx) as Hcr.
    unfold no_cr in *. rewrite !all_chars_app, Hcr. simpl in IH.
    by rewrite IH.
Qed.

(** What is written with the platform's line ends is read back as it
    was, as long as it holds no carriage return of its own. *)
Lemma universal_newlines_translate_out p s :
  no_cr s = true -> universal_newlines (translate_out p s) = s.
Proof.
  unfold no_cr. induction s as [|c s IH]; simpl; [done|].
  intros [Hc Hs]%andb_true_iff. apply negb_true_iff in Hc.
  destruct (c =? LF)%char eqn:Hlf.
  - apply Ascii.eqb_eq in Hlf as ->. destruct p; simpl; by rewrite IH.
  - simpl. rewrite Hc. by rewrite IH.
Qed.

Lemma splitlines_from_line cur x r :
  no_linebreak x = true ->
  splitlines_from cur (x +:+ r) = splitlines_from (cur +:+ x) r.
Proof.
  unfold no_linebreak. revert cur.
  induction x as [|c x IH]; intros cur.
  - by rewrite append_nil_l, append_nil_r.
  - intros [Hc Hx]%andb_true_iff. apply negb_true_iff in Hc.
    rewrite append_cons. simpl. rewrite Hc.
    rewrite IH by done. by rewrite append_assoc.
Qed.

Lemma splitlines_from_nl cur r :
  splitlines_from cur (nl +:+ r) = cur :: splitlines_from EmptyString r.
Proof. unfold nl. rewrite append_cons, append_nil_l. simpl. by destruct r. Qed.

Lemma append_not_empty (a b : string) :
  b <> EmptyString -> a +:+ b <> EmptyString.
Proof. destruct a; [done|]. rewrite append_cons. discriminate. Qed.

Lemma splitlines_from_join cur x l :
  Forall line_safe (x :: l) ->
  splitlines_from cur (join nl (x :: l)) = (cur +:+ x) :: l.
Proof.
  revert cur x. induction l as [|y l IH]; intros cur x Hsafe.
  - apply Forall_cons in Hsafe as [[Hne Hx] _]. simpl.
    rewrite <- (append_nil_r x) at 1. rewrite splitlines_from_line by done.
    simpl. pose proof (append_not_empty cur x Hne).
    by destruct (cur +:+ x).
  - apply Forall_cons in Hsafe as [[Hne Hx] Hsafe].
    change (join nl (x :: y :: l)) with (x +:+ nl +:+ join nl (y :: l)).
    rewrite splitlines_from_line, splitlines_from_nl by done.
    by rewrite IH.
Qed.

(** Lines that are safe are read back as they were joined. *)
Lemma splitlines_join l :
  Forall line_safe l -> splitlines (join nl l) = l.
Proof.
  destruct l as [|x l]; [done|]. intros H.
  unfold splitlines. by rewrite splitlines_from_join.
Qed.

Lemma save_proxies_run E proxies prefix w :
  save_proxies E proxies prefix w =
    let file_path := saved_path prefix (clock E (ticks w)) in
    (Return None,
     World (sent w)
           (<[file_path := translate_out (platform E) (join nl proxies)]>
              (files w))
           (stdout w ++
              [Fore_GREEN +:+ "Proxies saved to " +:+ file_path +:+
               Style_RESET_ALL])
           (stdin w) (S (ticks w))).
Proof. reflexivity. Qed.

(** Reading back the file [save_proxies] has just written: the lines of
    what was written, as a set. *)
Lemma read_after_save E proxies prefix w :
  exists w',
    save_proxies E proxies prefix w = (Return None, w') /\
    read_proxy_file (saved_path prefix (clock E (ticks w))) w'
      = (Return
           (list_to_set
              (splitlines
                 (universal_newlines
                    (translate_out (platform E) (join nl proxies))))),
         w').
Proof.
  rewrite save_proxies_run. simpl. eexists. split; [done|].
  unfold read_proxy_file, try_except, mbind, py_bind, bind, read_text. simpl.
  by rewrite lookup_insert_eq.
Qed.

Lemma read_back_lines p l :
  Forall line_safe l ->
  splitlines (universal_newlines (translate_out p (join nl l))) = l.
Proof.
  intros Hsafe. rewrite universal_newlines_translate_out.
  - by apply splitlines_join.
  - apply no_cr_join. eapply Forall_impl; [exact Hsafe|]. by intros s [_ Hs].
Qed.

(** C7 (as stated, refuted): on a network that answers the probe of the
    empty string, the validator returns the list holding the empty
    string; saved and read back, it has become the empty set. *)
Lemma roundtrip_loses_empty_string :
  let E := Scenarios.open_network in
  let w := initial_world [] in
  exists w1 w2,
    filter_proxies E {[ EmptyString ]} w = (Return [EmptyString], w1) /\
    save_proxies E [EmptyString] "working_proxies" w1 = (Return None, w2) /\
    read_proxy_file (saved_path "working_proxies" (clock E (ticks w1))) w2
      = (Return ∅, w2) /\
    (∅ : gset string) <> list_to_set [EmptyString].
Proof.
  eexists _, _. split; [vm_compute; reflexivity|].
  split; [vm_compute; reflexivity|].
  split; [vm_compute; reflexivity|].
  intros H. apply (not_elem_of_empty (C := gset string) EmptyString).
  rewrite H. apply elem_of_list_to_set. by left.
Qed.

(** C7 (amended): a list of strings each of which is not empty and holds
    no line boundary, saved by [save_proxies] and read back from the file
    it wrote the way [check_proxies_menu] reads, gives the set of the
    strings of the list, on either platform. *)
Theorem save_then_read_roundtrip E (valid : list string) prefix w :
  Forall line_safe valid ->
  exists w',
    save_proxies E valid prefix w = (Return None, w') /\
    read_proxy_file (saved_path prefix (clock E (ticks w))) w'
      = (Return (list_to_set valid), w').
Proof.
  intros Hsafe.
  destruct (read_after_save E valid prefix w) as (w' & Hsave & Hread).
  exists w'. split; [exact Hsave|].
  rewrite Hread. by rewrite read_back_lines.
Qed.

Lemma save_then_read_roundtrip_witness :
  let E := Scenarios.one_proxy_up in
  let valid := ["203.0.113.5:8080"; "198.51.100.7:3128"] in
  exists w',
    save_proxies E valid "working_proxies" (initial_world [])
      = (Return None, w') /\
    read_proxy_file
      (saved_path "working_proxies" (clock E (ticks (initial_world [])))) w'
      = (Return (list_to_set valid), w').
Proof.
  apply (save_then_read_roundtrip Scenarios.one_proxy_up
           ["203.0.113.5:8080"; "198.51.100.7:3128"] "working_proxies"
           (initial_world [])).
  repeat (apply Forall_cons; split; [split; [discriminate | reflexivity]|]).
  apply Forall_nil. done.
Defined.

(** C9: whatever it is given, [save_proxies] returns [None]; no path
    reaches its caller. *)
Theorem save_proxies_returns_None E proxies prefix w :
  (save_proxies E proxies prefix w).1 = Return None.
Proof. by rewrite save_proxies_run. Qed.

(** ** The sources *)

Lemma contains_refl p : contains p p.
Proof. exists EmptyString, EmptyString. by rewrite append_nil_l, append_nil_r. Qed.

Lemma contains_app_l p a s : contains p s -> contains p (a +:+ s).
Proof.
  intros (pre & post & ->). exists (a +:+ pre), post. by rewrite append_assoc.
Qed.

Lemma contains_app_r p s b : contains p s -> contains p (s +:+ b).
Proof.
  intros (pre & post & ->). exists pre, (post +:+ b).
  by rewrite !append_assoc.
Qed.

Lemma contains_join p sep y l :
  y ∈ l -> contains p y -> contains p (join sep l).
Proof.
  intros Hy Hp. induction l as [|x l IH]; [by apply elem_of_nil in Hy|].
  destruct l as [|x' l].
  - apply list_elem_of_singleton in Hy as ->. done.
  - change (join sep (x :: x' :: l)) with (x +:+ sep +:+ join sep (x' :: l)).
    apply elem_of_cons in Hy as [->|Hy].
    + by apply contains_app_r.
    + by apply contains_app_l, contains_app_l, IH.
Qed.

Lemma contains_trans a b c : contains a b -> contains b c -> contains a c.
Proof.
  intros (p1 & q1 & ->) (p2 & q2 & ->). exists (p2 +:+ p1), (q1 +:+ q2).
  by rewrite !append_assoc.
Qed.

Lemma contains_repr_set x (s : gset string) :
  x ∈ s -> contains (repr_str x) (repr_set s).
Proof.
  intros Hx. unfold repr_set. apply elem_of_elements in Hx.
  destruct (elements s) as [|y l] eqn:Hl; [by apply elem_of_nil in Hx|].
  apply contains_app_l, contains_app_r.
  apply (contains_join _ _ (repr_str x)); [|apply contains_refl].
  apply list_elem_of_fmap. by exists x.
Qed.

Lemma has_char_plain c s :
  (forall a, (a =? c)%char = true ->
             is_printable a && negb (a =? squote)%char &&
             negb (a =? backslash)%char = false) ->
  plain s = true -> has_char c s = false.
Proof.
  intros Hc. unfold plain. induction s as [|a s IH]; [done|]. simpl.
  intros [Ha Hs]%andb_true_iff. rewrite IH by done.
  destruct (a =? c)%char eqn:Hac; [|done].
  rewrite (Hc a Hac) in Ha. done.
Qed.

Lemma repr_body_plain s : plain s = true -> repr_body squote s = s.
Proof.
  unfold plain. induction s as [|c s IH]; [done|]. simpl.
  intros [Hc Hs]%andb_true_iff. rewrite IH by done.
  apply andb_true_iff in Hc as [Hc Hb]. apply andb_true_iff in Hc as [Hp Hq].
  apply negb_true_iff in Hb, Hq. unfold repr_char. rewrite Hq, Hb. simpl.
  destruct (c =? TAB)%char eqn:Ht;
    [apply Ascii.eqb_eq in Ht as ->; discriminate|].
  destruct (c =? LF)%char eqn:Hn;
    [apply Ascii.eqb_eq in Hn as ->; discriminate|].
  destruct (c =? CR)%char eqn:Hr;
    [apply Ascii.eqb_eq in Hr as ->; discriminate|].
  by rewrite Hp.
Qed.

(** A plain string is written as it is, between single quotes. *)
Lemma repr_str_plain s :
  plain s = true -> repr_str s = String squote (s +:+ String squote EmptyString).
Proof.
  intros Hs. unfold repr_str, repr_quote.
  rewrite (has_char_plain squote s); [|intros a Ha|done].
  - simpl. by rewrite repr_body_plain.
  - rewrite Ha. simpl. by rewrite andb_false_r.
Qed.

Lemma contains_repr_str_plain s : plain s = true -> contains s (repr_str s).
Proof.
  intros Hs. rewrite repr_str_plain by done.
  exists (String squote EmptyString), (String squote EmptyString). done.
Qed.

(** C10: when one of the requested sources is not a key of
    [PROXY_SOURCES], [get_proxies] raises a [ValueError] and the world is
    as it was: no request has been sent and no file written.  The message
    names every requested source that is not a key: it holds the [repr]
    of each, and so the name itself when the name is plain. *)
Theorem get_proxies_rejects_unknown_sources E (sources : list string) w s :
  s ∈ sources ->
  s ∉ keys PROXY_SOURCES ->
  exists msg,
    get_proxies E (Some sources) w = (Raise (ValueError msg), w) /\
    forall x, x ∈ sources -> x ∉ keys PROXY_SOURCES ->
      str_in (repr_str x) msg = true /\
      (plain x = true -> str_in x msg = true).
Proof.
  intros Hs Hk. unfold get_proxies.
  set (invalid := list_to_set sources ∖ list_to_set (keys PROXY_SOURCES)).
  assert (Hin : forall x, x ∈ sources -> x ∉ keys PROXY_SOURCES ->
                          x ∈ (invalid : gset string)).
  { intros x Hx Hxk. apply elem_of_difference.
    by rewrite !elem_of_list_to_set. }
  destruct (decide (invalid = ∅)) as [Hempty|_].
  - specialize (Hin s Hs Hk). rewrite Hempty in Hin.
    by apply not_elem_of_empty in Hin.
  - eexists. split; [reflexivity|]. intros x Hx Hxk.
    assert (Hrepr : contains (repr_str x)
                      ("Invalid sources specified: " +:+ repr_set invalid)).
    { apply contains_app_l, contains_repr_set. by apply Hin. }
    split; [by apply str_in_spec|]. intros Hplain.
    apply str_in_spec. eapply contains_trans; [|exact Hrepr].
    by apply contains_repr_str_plain.
Qed.

Lemma get_proxies_rejects_unknown_sources_witness :
  exists msg,
    get_proxies Scenarios.open_network (Some ["sslproxies"; "no\such"])
      (initial_world [])
    = (Raise (ValueError msg), initial_world []) /\
    forall x, x ∈ ["sslproxies"; "no\such"] -> x ∉ keys PROXY_SOURCES ->
      str_in (repr_str x) msg = true /\
      (plain x = true -> str_in x msg = true).
Proof.
  apply (get_proxies_rejects_unknown_sources Scenarios.open_network
           ["sslproxies"; "no\such"] (initial_world []) "no\such").
  - apply list_elem_of_In. simpl. auto.
  - rewrite list_elem_of_In. simpl. intuition discriminate.
Defined.

(** The backslash of a name is doubled in the message. *)
Example get_proxies_unknown_source_escaped :
  (get_proxies Scenarios.open_network (Some ["sslproxies"; "no\such"])
     (initial_world [])).1
  = Raise (ValueError "Invalid sources specified: {'no\\such'}").
Proof. vm_compute. reflexivity. Qed.

Example get_proxies_unknown_source_message :
  (get_proxies Scenarios.open_network (Some ["sslproxies"; "nosuch"])
     (initial_world [])).1
  = Raise (ValueError "Invalid sources specified: {'nosuch'}").
Proof. vm_compute. reflexivity. Qed.

(** ** Endpoints and lines *)

Lemma void_not_nullable r : void r = true -> nullable r = false.
Proof.
  induction r as [| | | |r1 IH1 r2 IH2|r1 IH1 r2 IH2|r IH]; simpl;
    try done.
  - intros [H|H]%orb_true_iff.
    + by rewrite IH1.
    + rewrite IH2 by done. apply andb_false_r.
  - intros [H1 H2]%andb_true_iff. by rewrite IH1, IH2.
Qed.

Lemma void_deriv c r : void r = true -> void (deriv c r) = true.
Proof.
  induction r as [| | | |r1 IH1 r2 IH2|r1 IH1 r2 IH2|r IH]; simpl;
    try done.
  - intros H. destruct (nullable r1) eqn:Hn; simpl.
    + apply orb_true_iff in H as [H|H].
      * apply void_not_nullable in H. congruence.
      * rewrite H, IH2 by done. by rewrite orb_true_r.
    + apply orb_true_iff in H as [H|H].
      * by rewrite IH1.
      * rewrite H. apply orb_true_r.
  - intros [H1 H2]%andb_true_iff. by rewrite IH1, IH2.
Qed.

Lemma void_fullmatch r s : void r = true -> fullmatch r s = false.
Proof.
  revert r. induction s as [|c s IH]; intros r H; simpl.
  - by apply void_not_nullable.
  - by apply IH, void_deriv.
Qed.

Lemma literals_deriv p c r :
  literals p r = true -> literals p (deriv c r) = true.
Proof.
  induction r as [| |a| |r1 IH1 r2 IH2|r1 IH1 r2 IH2|r IH]; simpl;
    try done.
  - intros _. by destruct (a =? c)%char.
  - intros _. by destruct (is_decimal c).
  - intros [H1 H2]%andb_true_iff.
    destruct (nullable r1); simpl; rewrite IH1, H2 by done; [|done].
    by rewrite IH2.
  - intros [H1 H2]%andb_true_iff. by rewrite IH1, IH2.
  - intros H. by rewrite IH, H.
Qed.

Lemma is_linebreak_not_decimal c : is_linebreak c = true -> is_decimal c = false.
Proof.
  unfold is_linebreak. rewrite !orb_true_iff, !Ascii.eqb_eq.
  intros [[[[[[[->| ->]| ->]| ->]| ->]| ->]| ->]| ->]; reflexivity.
Qed.

(** A line boundary takes a pattern without line boundaries nowhere. *)
Lemma linebreak_deriv_void c r :
  is_linebreak c = true ->
  literals (fun a => negb (is_linebreak a)) r = true ->
  void (deriv c r) = true.
Proof.
  intros Hc.
  induction r as [| |a| |r1 IH1 r2 IH2|r1 IH1 r2 IH2|r IH]; simpl;
    try done.
  - intros Ha. destruct (a =? c)%char eqn:Hac; [|done].
    apply Ascii.eqb_eq in Hac as ->. by rewrite Hc in Ha.
  - intros _. by rewrite is_linebreak_not_decimal.
  - intros [H1 H2]%andb_true_iff.
    destruct (nullable r1); simpl; rewrite IH1 by done; [|done].
    by rewrite IH2.
  - intros [H1 H2]%andb_true_iff. by rewrite IH1, IH2.
  - intros H. by rewrite IH.
Qed.

Lemma fullmatch_no_linebreak r s :
  literals (fun a => negb (is_linebreak a)) r = true ->
  fullmatch r s = true ->
  no_linebreak s = true.
Proof.
  unfold no_linebreak. revert r.
  induction s as [|c s IH]; intros r Hr Hm; simpl in *; [done|].
  destruct (is_linebreak c) eqn:Hc; simpl.
  - rewrite void_fullmatch in Hm; [done|]. by apply linebreak_deriv_void.
  - apply (IH (deriv c r)); [by apply literals_deriv | done].
Qed.

(** A string that is an endpoint from its first to its last character is
    safe as a line. *)
Lemma endpoint_line_safe s :
  fullmatch endpoint_regex s = true -> line_safe s.
Proof.
  intros Hm. split.
  - intros ->. discriminate.
  - by apply (fullmatch_no_linebreak endpoint_regex).
Qed.

(** The artifact gives back every result made of endpoints. *)
Corollary endpoints_roundtrip E (valid : list string) prefix w :
  Forall (fun s => fullmatch endpoint_regex s = true) valid ->
  exists w',
    save_proxies E valid prefix w = (Return None, w') /\
    read_proxy_file (saved_path prefix (clock E (ticks w))) w'
      = (Return (list_to_set valid), w').
Proof.
  intros H.
  destruct (read_after_save E valid prefix w) as (w' & Hsave & Hread).
  exists w'. split; [exact Hsave|].
  rewrite Hread, read_back_lines; [done|].
  eapply Forall_impl; [exact H|]. apply endpoint_line_safe.
Qed.

(** A line feed inside a string of the result splits it in two when the
    file is read back. *)
Example roundtrip_splits_line_feed :
  let E := Scenarios.open_network in
  let w := initial_world [] in
  let s := "a" +:+ nl +:+ "b" in
  (read_proxy_file (saved_path "p" (clock E 0))
     (save_proxies E [s] "p" w).2).1
  = Return {[ "a"; "b" ]}.
Proof. vm_compute. reflexivity. Qed.

(** The supplier, for its part, keeps only lines of the form it expects. *)
Lemma parse_spysme_matches response_text s :
  s ∈ parse_spysme response_text -> re_match ip_port_regex s = true.
Proof.
  unfold parse_spysme. rewrite elem_of_list_to_set.
  by intros [H _]%list_elem_of_filter.
Qed.

(** * Further properties *)

(** ** Lines *)

Lemma no_linebreak_app a b :
  no_linebreak (a +:+ b) = no_linebreak a && no_linebreak b.
Proof. apply all_chars_app. Qed.

Lemma splitlines_from_no_linebreak n : forall s cur,
  (String.length s <= n)%nat ->
  no_linebreak cur = true ->
  Forall (fun l => no_linebreak l = true) (splitlines_from cur s).
Proof.
  induction n as [|n IH]; intros s cur Hlen Hcur.
  - destruct s; [|simpl in Hlen; lia]. simpl.
    destruct cur; [apply Forall_nil_2 | by apply Forall_singleton].
  - destruct s as [|c s].
    + simpl. destruct cur; [apply Forall_nil_2 | by apply Forall_singleton].
    + simpl in Hlen. simpl. destruct (is_linebreak c) eqn:Hc.
      * apply Forall_cons; split; [done|].
        destruct s as [|c' s'].
        { apply IH; [simpl; lia | done]. }
        destruct ((c =? CR)%char && (c' =? LF)%char);
          apply IH; simpl in *; try lia; done.
      * apply IH; [lia|]. rewrite no_linebreak_app, Hcur. simpl.
        unfold no_linebreak. simpl. by rewrite Hc.
Qed.

Lemma splitlines_no_linebreak s l :
  l ∈ splitlines s -> no_linebreak l = true.
Proof.
  intros Hl.
  pose proof (splitlines_from_no_linebreak (String.length s) s EmptyString
                (le_n _) eq_refl) as Hall.
  by apply (proj1 (Forall_forall _ _) Hall).
Qed.

Lemma no_linebreak_chomp s : no_linebreak s = true -> chomp s = None.
Proof.
  unfold no_linebreak. induction s as [|c s IH]; [done|].
  simpl. intros [Hc Hs]%andb_true_iff. destruct s as [|c' s'].
  - destruct (c =? LF)%char eqn:Hlf; [|done].
    apply Ascii.eqb_eq in Hlf as ->. done.
  - by rewrite IH.
Qed.

(** On a string without line boundary [$] can only stand at the end. *)
Lemma re_match_fullmatch r s :
  no_linebreak s = true -> re_match r s = fullmatch r s.
Proof.
  intros H. unfold re_match. rewrite (no_linebreak_chomp s H).
  apply orb_false_r.
Qed.

(** X1: when the file of proxies is read, the world is as it was and
    no string of the set that comes back holds a line boundary. *)
Theorem read_proxy_file_lines file_path w proxies w' :
  read_proxy_file file_path w = (Return proxies, w') ->
  w' = w /\ forall s, s ∈ proxies -> no_linebreak s = true.
Proof.
  unfold read_proxy_file, try_except, read_text. unfold_py.
  destruct (files w !! file_path) as [content|]; simpl; [|discriminate].
  intros H. injection H as <- <-. split; [done|].
  intros s Hs. apply elem_of_list_to_set in Hs.
  by eapply splitlines_no_linebreak.
Qed.

Lemma read_proxy_file_lines_witness :
  let w := Scenarios.candidates_file in
  w = w /\
  forall s, s ∈ ({[ "203.0.113.5:8080"; "198.51.100.7:3128" ]} : gset string) ->
            no_linebreak s = true.
Proof.
  apply (read_proxy_file_lines "list.txt" Scenarios.candidates_file
           {[ "203.0.113.5:8080"; "198.51.100.7:3128" ]}
           Scenarios.candidates_file).
  vm_compute. reflexivity.
Defined.

(** ** parse_spysme *)

Lemma ip_port_not_empty : fullmatch ip_port_regex EmptyString = false.
Proof. reflexivity. Qed.

(** X2: every string [parse_spysme] returns has the form of the pattern
    from its first to its last character, and is safe as a line of the
    file [save_proxies] writes. *)
Theorem parse_spysme_sound response_text s :
  s ∈ parse_spysme response_text ->
  fullmatch ip_port_regex s = true /\ line_safe s.
Proof.
  unfold parse_spysme. rewrite elem_of_list_to_set.
  intros [Hm Hs]%list_elem_of_filter.
  apply splitlines_no_linebreak in Hs.
  rewrite re_match_fullmatch in Hm by done.
  split; [done|]. split; [|done].
  intros ->. by rewrite ip_port_not_empty in Hm.
Qed.

Lemma parse_spysme_sound_witness :
  fullmatch ip_port_regex "203.0.113.5:8080" = true /\
  line_safe "203.0.113.5:8080".
Proof.
  apply (parse_spysme_sound
           ("Free proxies" +:+ nl +:+ "203.0.113.5:8080" +:+ nl)).
  vm_compute. reflexivity.
Defined.

(** X3: on a text made of safe lines joined by line feeds,
    [parse_spysme] gives exactly the lines that have the form of the
    pattern. *)
Theorem parse_spysme_join (lines : list string) :
  Forall line_safe lines ->
  parse_spysme (join nl lines)
  = list_to_set (filter (fun s => fullmatch ip_port_regex s = true) lines).
Proof.
  intros Hsafe. unfold parse_spysme. rewrite splitlines_join by done.
  apply set_eq. intros s. rewrite !elem_of_list_to_set, !list_elem_of_filter.
  split; intros [Hm Hs]; (split; [|done]).
  - rewrite <- re_match_fullmatch; [done|].
    by apply (proj1 (Forall_forall _ _) Hsafe s Hs).
  - rewrite re_match_fullmatch; [done|].
    by apply (proj1 (Forall_forall _ _) Hsafe s Hs).
Qed.

Lemma parse_spysme_join_witness :
  parse_spysme (join nl ["203.0.113.5:8080"; "Free proxies"])
  = list_to_set
      (filter (fun s => fullmatch ip_port_regex s = true)
              ["203.0.113.5:8080"; "Free proxies"]).
Proof.
  apply (parse_spysme_join ["203.0.113.5:8080"; "Free proxies"]).
  repeat (apply Forall_cons; split; [split; [discriminate | reflexivity]|]).
  apply Forall_nil. done.
Defined.

(** ** parse_html_table *)

(** The table is read row by row: the first row of one cell that is an
    address raises [IndexError]; without such a row the proxies of all
    the rows come back.  The world is not touched. *)
Lemma parse_html_table_spec soup w :
  (Exists short_row soup /\
   parse_html_table soup w = (Raise IndexError, w)) \/
  (~ Exists short_row soup /\
   exists proxies,
     parse_html_table soup w = (Return proxies, w) /\
     forall p, p ∈ proxies <->
               exists columns, columns ∈ soup /\ row_gives columns p).
Proof.
  unfold parse_html_table.
  match goal with |- context [for_each soup ?b _] => set (body := b) end.
  assert (Hgen : forall acc : gset string,
    (Exists short_row soup /\
     for_each soup body acc w = (Raise IndexError, w)) \/
    (~ Exists short_row soup /\
     exists proxies,
       for_each soup body acc w = (Return proxies, w) /\
       forall p, p ∈ proxies <->
                 p ∈ acc \/ exists columns, columns ∈ soup /\ row_gives columns p)).
  { induction soup as [|columns soup IH]; intros acc.
    - right. split; [by intros H%Exists_nil|]. exists acc. split; [done|].
      intros p. split; [by left|]. intros [H|(c & H & _)]; [done|].
      by apply elem_of_nil in H.
    - assert (Hstep : short_row columns /\
                body acc columns w = (Raise IndexError, w) \/
              ~ short_row columns /\
                exists acc', body acc columns w = (Return acc', w) /\
                  forall p, p ∈ acc' <-> p ∈ acc \/ row_gives columns p).
      { subst body. simpl. destruct columns as [|c0 [|c1 rest]].
        - right. split; [intros (c & H & _); discriminate|].
          exists acc. split; [done|]. intros p. split; [by left|].
          intros [H|(a & b & r & H & _)]; [done | discriminate].
        - destruct (re_match ip_regex c0) eqn:Hm.
          + left. split; [by exists c0 | done].
          + right. split; [intros (c & H & Hc); injection H as ->; congruence|].
            exists acc. split; [done|]. intros p. split; [by left|].
            intros [H|(a & b & r & H & _)]; [done | discriminate].
        - right. split; [intros (c & H & _); discriminate|].
          destruct (re_match ip_regex c0) eqn:Hm;
            [destruct (isdigit c1) eqn:Hd|].
          + eexists. split; [reflexivity|]. intros p.
            rewrite elem_of_union, elem_of_singleton. split.
            * intros [H| ->]; [by left|]. right. by exists c0, c1, rest.
            * intros [H|(a & b & r & H & _ & _ & ->)]; [by left|].
              injection H as -> -> _. by right.
          + exists acc. split; [done|]. intros p. split; [by left|].
            intros [H|(a & b & r & H & _ & Hb & _)]; [done|].
            injection H as -> -> _. congruence.
          + exists acc. split; [done|]. intros p. split; [by left|].
            intros [H|(a & b & r & H & Ha & _)]; [done|].
            injection H as -> -> _. congruence. }
      change (for_each (columns :: soup) body acc w)
        with (bind (body acc columns) (for_each soup body) w).
      unfold bind. destruct Hstep as [[Hshort ->]|[Hnot (acc' & -> & Hacc')]].
      + left. split; [by apply Exists_cons_hd | done].
      + destruct (IH acc') as [[Hex ->]|[Hnex (proxies & -> & Hp)]].
        * left. split; [by apply Exists_cons_tl | done].
        * right. split.
          { intros [H|H]%Exists_cons; [by apply Hnot | by apply Hnex]. }
          exists proxies. split; [done|]. intros p.
          rewrite Hp, Hacc'. split.
          -- intros [[H|H]|(c & Hc & Hg)].
             ++ by left.
             ++ right. exists columns. split; [by left | done].
             ++ right. exists c. split; [by right | done].
          -- intros [H|(c & Hc & Hg)]; [left; by left|].
             apply elem_of_cons in Hc as [->|Hc].
             ++ left. by right.
             ++ right. by exists c. }
  destruct (Hgen ∅) as [[Hex Hrun]|[Hnex (proxies & Hrun & Hp)]].
  - by left.
  - right. split; [done|]. exists proxies. split; [done|].
    intros p. rewrite Hp. split; [|by right].
    intros [H|H]; [|done]. by apply not_elem_of_empty in H.
Qed.

(** X4: [parse_html_table] raises exactly when the table has a row of a
    single cell that is an address, and what it raises is [IndexError];
    it leaves the world as it was. *)
Theorem parse_html_table_raises_iff soup w :
  (parse_html_table soup w = (Raise IndexError, w) <-> Exists short_row soup) /\
  (forall e w', parse_html_table soup w = (Raise e, w') ->
                e = IndexError /\ w' = w).
Proof.
  destruct (parse_html_table_spec soup w)
    as [[Hex Hrun]|[Hnex (proxies & Hrun & _)]]; rewrite Hrun.
  - split; [done|]. intros e w' H. by injection H as <- <-.
  - split; [|intros e w' H; discriminate].
    split; [discriminate | done].
Qed.

(** X5: when [parse_html_table] returns, its result holds exactly the
    strings [c0:c1] of the rows whose first cell is an address and whose
    second cell is made of digits, and the world is as it was. *)
Theorem parse_html_table_returns soup w proxies w' :
  parse_html_table soup w = (Return proxies, w') ->
  w' = w /\
  forall p, p ∈ proxies <->
            exists columns, columns ∈ soup /\ row_gives columns p.
Proof.
  destruct (parse_html_table_spec soup w)
    as [[Hex Hrun]|[Hnex (proxies' & Hrun & Hp)]]; rewrite Hrun;
    [discriminate|].
  intros H. injection H as <- <-. done.
Qed.

Lemma parse_html_table_returns_witness :
  let soup := [["IP Address"; "Port"]; ["203.0.113.5"; "8080"; "US"]] in
  let w := initial_world [] in
  w = w /\
  forall p, p ∈ ({[ "203.0.113.5:8080" ]} : gset string) <->
            exists columns, columns ∈ soup /\ row_gives columns p.
Proof.
  apply (parse_html_table_returns
           [["IP Address"; "Port"]; ["203.0.113.5"; "8080"; "US"]]
           (initial_world []) {[ "203.0.113.5:8080" ]} (initial_world [])).
  vm_compute. reflexivity.
Defined.

Example parse_html_table_short_row :
  (parse_html_table [["203.0.113.5"; "8080"]; ["198.51.100.7"]]
     (initial_world [])).1
  = Raise IndexError.
Proof. vm_compute. reflexivity. Qed.

(** ** get_proxies *)

Lemma get_proxies_unfold E srcs :
  get_proxies E srcs =
    let sources := default (keys PROXY_SOURCES) srcs in
    let invalid_sources : gset string :=
      list_to_set sources ∖ list_to_set (keys PROXY_SOURCES) in
    if decide (invalid_sources = ∅) then
      proxies ← for_each sources (fetch_source E) ∅;
      save_proxies E (elements proxies) EmptyString;;
      ret proxies
    else
      raise (ValueError
               ("Invalid sources specified: " +:+ repr_set invalid_sources)).
Proof. by destruct srcs. Qed.

Lemma getitem_key d k w :
  k ∈ keys d -> exists v, getitem d k w = (Return v, w) /\ (k, v) ∈ d.
Proof.
  unfold keys. induction d as [|[k' v'] d IH]; simpl.
  - by intros H%elem_of_nil.
  - destruct (String.eqb k' k) eqn:Hk.
    + apply String.eqb_eq in Hk as ->. intros _. exists v'.
      split; [done | by left].
    + intros [->|H]%elem_of_cons; [by rewrite String.eqb_refl in Hk|].
      destruct (IH H) as (v & Hv & Hin). exists v. split; [done | by right].
Qed.

Lemma no_invalid_sources (sources : list string) :
  (list_to_set sources ∖ list_to_set (keys PROXY_SOURCES) : gset string) = ∅ ->
  Forall (fun s => s ∈ keys PROXY_SOURCES) sources.
Proof.
  intros Hempty. apply Forall_forall. intros s Hs.
  destruct (decide (s ∈ keys PROXY_SOURCES)) as [|Hn]; [done|].
  assert (Hin : s ∈ (list_to_set sources ∖ list_to_set (keys PROXY_SOURCES)
                      : gset string)).
  { apply elem_of_difference. by rewrite !elem_of_list_to_set. }
  rewrite Hempty in Hin. by apply not_elem_of_empty in Hin.
Qed.

(** One turn of the loop, for a source of the dictionary: the request is
    sent; a failed request or an error status is printed and skipped; a
    page is parsed, and what the parser raises goes through. *)
Lemma fetch_source_cases E proxies source w :
  source ∈ keys PROXY_SOURCES ->
  exists req,
    fetches source req /\
    let w1 := World (sent w ++ [req]) (files w) (stdout w) (stdin w) (ticks w) in
    let skip e :=
      (Return proxies,
       (print (Fore_RED +:+ "Error fetching from " +:+ source +:+ ": " +:+
               exn_str e +:+ Style_RESET_ALL) w1).2) in
    fetch_source E proxies source w =
      match network E (sent w) req with
      | inl e => if is_RequestException e then skip e else (Raise e, w1)
      | inr resp =>
          if is_error_status (status_code resp)
          then skip (RequestException (pretty (status_code resp) +:+ " Error"))
          else if String.eqb source "spysme"
          then (Return (proxies ∪ parse_spysme (text resp)), w1)
          else
            match (parse_html_table (html_rows E (text resp)) w1).1 with
            | Return found => (Return (proxies ∪ found), w1)
            | Raise e => (Raise e, w1)
            end
      end.
Proof.
  intros Hkey.
  destruct (getitem_key PROXY_SOURCES source w Hkey) as (url & Hget & Hin).
  exists (Request url None None). split; [by exists url|].
  unfold fetch_source, try_except. unfold_py. rewrite Hget.
  unfold requests_get. simpl.
  destruct (network E (sent w) (Request url None None)) as [e|resp]; simpl.
  - by destruct (is_RequestException e).
  - unfold raise_for_status, is_error_status.
    destruct ((400 <=? status_code resp) && (status_code resp <? 600)); simpl;
      [done|].
    destruct (String.eqb source "spysme"); simpl; [done|].
    match goal with |- context [parse_html_table ?soup ?w0] =>
      destruct (parse_html_table_spec soup w0)
        as [[_ ->]|[_ (found & -> & _)]] end; done.
Qed.

Lemma fetch_source_frame E proxies source w r w' :
  source ∈ keys PROXY_SOURCES ->
  fetch_source E proxies source w = (r, w') ->
  files w' = files w /\ ticks w' = ticks w /\ stdin w' = stdin w /\
  exists req, fetches source req /\ sent w' = sent w ++ [req].
Proof.
  intros Hkey Hrun.
  destruct (fetch_source_cases E proxies source w Hkey) as (req & Hreq & Hcases).
  simpl in Hcases. rewrite Hcases in Hrun. clear Hcases.
  assert (Hgoal : forall r0 w0,
            files w0 = files w -> ticks w0 = ticks w -> stdin w0 = stdin w ->
            sent w0 = sent w ++ [req] -> (r0, w0) = (r, w') ->
            files w' = files w /\ ticks w' = ticks w /\ stdin w' = stdin w /\
            exists req, fetches source req /\ sent w' = sent w ++ [req]).
  { intros r0 w0 Hf Ht Hi Hs H. injection H as <- <-.
    repeat split; try done. by exists req. }
  destruct (network E (sent w) req) as [e|resp].
  - destruct (is_RequestException e);
      refine (Hgoal _ _ _ _ _ _ Hrun); reflexivity.
  - destruct (is_error_status (status_code resp));
      [refine (Hgoal _ _ _ _ _ _ Hrun); reflexivity|].
    destruct (String.eqb source "spysme");
      [refine (Hgoal _ _ _ _ _ _ Hrun); reflexivity|].
    match type of Hrun with context [(parse_html_table ?soup ?w0).1] =>
      destruct ((parse_html_table soup w0).1) end;
      refine (Hgoal _ _ _ _ _ _ Hrun); reflexivity.
Qed.

Lemma fetch_loop_frame E sources : forall acc w r w',
  Forall (fun s => s ∈ keys PROXY_SOURCES) sources ->
  for_each sources (fetch_source E) acc w = (r, w') ->
  files w' = files w /\ ticks w' = ticks w /\ stdin w' = stdin w.
Proof.
  induction sources as [|source sources IH]; intros acc w r w' Hkeys Hrun.
  - by injection Hrun as <- <-.
  - apply Forall_cons in Hkeys as [Hkey Hkeys]. simpl in Hrun.
    unfold_py_in Hrun.
    destruct (fetch_source E acc source w) as [[acc'|e] w1] eqn:Hstep.
    + apply fetch_source_frame in Hstep as (Hf & Ht & Hi & _); [|done].
      apply IH in Hrun as (Hf' & Ht' & Hi'); [|done].
      repeat split; congruence.
    + apply fetch_source_frame in Hstep as (Hf & Ht & Hi & _); [|done].
      by injection Hrun as <- <-.
Qed.

Lemma fetch_loop_requests E sources : forall acc w proxies w',
  Forall (fun s => s ∈ keys PROXY_SOURCES) sources ->
  for_each sources (fetch_source E) acc w = (Return proxies, w') ->
  exists reqs, sent w' = sent w ++ reqs /\ Forall2 fetches sources reqs.
Proof.
  induction sources as [|source sources IH]; intros acc w proxies w' Hkeys Hrun.
  - injection Hrun as <- <-. exists []. by rewrite app_nil_r.
  - apply Forall_cons in Hkeys as [Hkey Hkeys]. simpl in Hrun.
    unfold_py_in Hrun.
    destruct (fetch_source E acc source w) as [[acc'|e] w1] eqn:Hstep;
      [|discriminate].
    apply fetch_source_frame in Hstep as (_ & _ & _ & req & Hreq & Hs); [|done].
    apply IH in Hrun as (reqs & Hs' & Hall); [|done].
    exists (req :: reqs). split; [|by apply Forall2_cons].
    rewrite Hs', Hs, <- app_assoc. done.
Qed.

(** X6: when [get_proxies] returns a set, the only file it has changed
    is the one named after the clock, which holds the members of the set
    joined by line feeds; when it raises, it has changed no file. *)
Theorem get_proxies_saves_result E srcs w :
  match get_proxies E srcs w with
  | (Return proxies, w') =>
      files w' =
        <[saved_path EmptyString (clock E (ticks w)) :=
            translate_out (platform E) (join nl (elements proxies))]>
          (files w)
  | (Raise _, w') => files w' = files w
  end.
Proof.
  rewrite get_proxies_unfold. simpl.
  destruct (decide _) as [Hvalid|_]; [|done].
  apply no_invalid_sources in Hvalid. unfold_py.
  destruct (for_each _ (fetch_source E) ∅ w) as [[proxies|e] w1] eqn:Hloop.
  - apply fetch_loop_frame in Hloop as (Hf & Ht & _); [|done].
    rewrite save_proxies_run. simpl. by rewrite Hf, Ht.
  - by apply fetch_loop_frame in Hloop as (Hf & _ & _).
Qed.

(** X8: when [get_proxies] returns, it has sent exactly one request for
    each source of its list, in the sequence of the list, to the address
    the dictionary gives for the source. *)
Theorem get_proxies_one_request_each E srcs w proxies :
  (get_proxies E srcs w).1 = Return proxies ->
  Forall2 fetches (default (keys PROXY_SOURCES) srcs)
          (issued w (get_proxies E srcs w).2).
Proof.
  rewrite get_proxies_unfold. simpl.
  destruct (decide _) as [Hvalid|_]; [|discriminate].
  apply no_invalid_sources in Hvalid. unfold_py.
  destruct (for_each _ (fetch_source E) ∅ w) as [[found|e] w1] eqn:Hloop;
    [|discriminate].
  apply fetch_loop_requests in Hloop as (reqs & Hs & Hall); [|done].
  rewrite save_proxies_run. simpl. intros _.
  by rewrite (issued_app w _ reqs).
Qed.

Lemma get_proxies_one_request_each_witness :
  Forall2 fetches ["spysme"; "sslproxies"]
    (issued (initial_world [])
       (get_proxies Scenarios.all_down (Some ["spysme"; "sslproxies"])
          (initial_world [])).2).
Proof.
  apply (get_proxies_one_request_each Scenarios.all_down
           (Some ["spysme"; "sslproxies"]) (initial_world []) ∅).
  vm_compute. reflexivity.
Defined.

Lemma all_sources_valid (sources : list string) :
  Forall (fun s => s ∈ keys PROXY_SOURCES) sources ->
  (list_to_set sources ∖ list_to_set (keys PROXY_SOURCES) : gset string) = ∅.
Proof.
  intros Hkeys. apply set_eq. intros s.
  rewrite elem_of_difference, !elem_of_list_to_set. split.
  - intros [Hs Hn]. destruct Hn.
    by apply (proj1 (Forall_forall _ _) Hkeys).
  - by intros H%not_elem_of_empty.
Qed.

Lemma fetch_loop_all_fail E sources : forall acc w,
  (forall hist r, request_fails (network E hist r) = true) ->
  Forall (fun s => s ∈ keys PROXY_SOURCES) sources ->
  exists w',
    for_each sources (fetch_source E) acc w = (Return acc, w') /\
    length (stdout w') = (length (stdout w) + length sources)%nat.
Proof.
  intros acc w Hfail. revert acc w.
  induction sources as [|source sources IH]; intros acc w Hkeys.
  - exists w. split; [done | simpl; lia].
  - apply Forall_cons in Hkeys as [Hkey Hkeys].
    destruct (fetch_source_cases E acc source w Hkey) as (req & _ & Hcases).
    simpl in Hcases. specialize (Hfail (sent w) req).
    unfold request_fails in Hfail. simpl. unfold_py. rewrite Hcases.
    destruct (network E (sent w) req) as [e|resp]; rewrite Hfail;
      (match goal with |- context [for_each sources _ acc ?w0] =>
         destruct (IH acc w0 Hkeys) as (w' & -> & Hlen) end);
      exists w'; (split; [done|]); rewrite Hlen; simpl;
      rewrite length_app; simpl; lia.
Qed.

(** X7: when every request fails, with a [RequestException] or an error
    status, [get_proxies] still returns: the set is empty, one line has
    been printed for each source and one for the file, and the file it
    has saved is empty. *)
Theorem get_proxies_all_sources_down E (sources : list string) w :
  (forall hist r, request_fails (network E hist r) = true) ->
  Forall (fun s => s ∈ keys PROXY_SOURCES) sources ->
  exists w',
    get_proxies E (Some sources) w = (Return ∅, w') /\
    files w' !! saved_path EmptyString (clock E (ticks w)) = Some EmptyString /\
    length (stdout w') = (length (stdout w) + length sources + 1)%nat.
Proof.
  intros Hfail Hkeys. rewrite get_proxies_unfold. simpl.
  rewrite decide_True by (by apply all_sources_valid). unfold_py.
  destruct (fetch_loop_all_fail E sources ∅ w Hfail Hkeys) as (w1 & Hloop & Hlen).
  rewrite Hloop.
  apply fetch_loop_frame in Hloop as (_ & Ht & _); [|done].
  rewrite save_proxies_run. simpl. eexists. split; [reflexivity|]. simpl.
  rewrite Ht, lookup_insert_eq, elements_empty. split; [done|].
  rewrite length_app, Hlen. simpl. lia.
Qed.

Lemma get_proxies_all_sources_down_witness :
  exists w',
    get_proxies Scenarios.all_down (Some ["sslproxies"; "spysme"])
      (initial_world [])
    = (Return ∅, w') /\
    files w' !! saved_path EmptyString
                  (clock Scenarios.all_down (ticks (initial_world [])))
    = Some EmptyString /\
    length (stdout w') = (length (stdout (initial_world [])) + 2 + 1)%nat.
Proof.
  apply (get_proxies_all_sources_down Scenarios.all_down
           ["sslproxies"; "spysme"] (initial_world [])).
  - intros hist r. reflexivity.
  - repeat (apply Forall_cons; split;
            [apply list_elem_of_In; simpl; tauto|]).
    apply Forall_nil. done.
Defined.

Lemma proxy_of_cells_line_safe c0 c1 :
  no_linebreak c0 = true -> no_linebreak c1 = true ->
  line_safe (c0 +:+ ":" +:+ c1).
Proof.
  intros H0 H1. split.
  - apply append_not_empty. discriminate.
  - by rewrite !no_linebreak_app, H0, H1.
Qed.

Lemma fetch_loop_line_safe E sources : forall acc w proxies w',
  clean_cells E ->
  Forall (fun s => s ∈ keys PROXY_SOURCES) sources ->
  for_each sources (fetch_source E) acc w = (Return proxies, w') ->
  (forall x, x ∈ acc -> line_safe x) ->
  forall x, x ∈ proxies -> line_safe x.
Proof.
  induction sources as [|source sources IH];
    intros acc w proxies w' Hclean Hkeys Hrun Hacc.
  - by injection Hrun as <- <-.
  - apply Forall_cons in Hkeys as [Hkey Hkeys]. simpl in Hrun.
    unfold_py_in Hrun.
    destruct (fetch_source E acc source w) as [[acc'|e] w1] eqn:Hstep;
      [|discriminate].
    apply (IH acc' w1 proxies w' Hclean Hkeys Hrun).
    destruct (fetch_source_cases E acc source w Hkey) as (req & _ & Hcases).
    simpl in Hcases. rewrite Hcases in Hstep. clear Hcases.
    destruct (network E (sent w) req) as [e|resp].
    { destruct (is_RequestException e); [|discriminate].
      by injection Hstep as <- _. }
    destruct (is_error_status (status_code resp)).
    { by injection Hstep as <- _. }
    destruct (String.eqb source "spysme").
    { injection Hstep as <- _. intros x [Hx|Hx]%elem_of_union; [by apply Hacc|].
      by apply parse_spysme_sound in Hx as [_ Hx]. }
    match type of Hstep with context [parse_html_table ?soup ?w0] =>
      destruct (parse_html_table_spec soup w0)
        as [[_ Hp]|[_ (found & Hp & Hfound)]]; rewrite Hp in Hstep end;
      [discriminate|].
    simpl in Hstep. injection Hstep as <- _.
    intros x [Hx|Hx]%elem_of_union; [by apply Hacc|].
    apply Hfound in Hx as (columns & Hcol & c0 & c1 & rest & -> & _ & _ & ->).
    apply proxy_of_cells_line_safe.
    + apply (Hclean _ _ c0 Hcol). by left.
    + apply (Hclean _ _ c1 Hcol). right. by left.
Qed.

(** X9: when the cells of the tables hold no line boundary, the file
    [get_proxies] saves is read back by [check_proxies_menu] as the very
    set [get_proxies] returns. *)
Theorem get_proxies_result_reads_back E srcs w proxies :
  clean_cells E ->
  (get_proxies E srcs w).1 = Return proxies ->
  read_proxy_file (saved_path EmptyString (clock E (ticks w)))
    (get_proxies E srcs w).2
  = (Return proxies, (get_proxies E srcs w).2).
Proof.
  intros Hclean. rewrite get_proxies_unfold. simpl.
  destruct (decide _) as [Hvalid|_]; [|discriminate].
  apply no_invalid_sources in Hvalid. unfold_py.
  destruct (for_each _ (fetch_source E) ∅ w) as [[found|e] w1] eqn:Hloop;
    [|discriminate].
  pose proof (fetch_loop_line_safe E _ ∅ w found w1 Hclean Hvalid Hloop) as Hsafe.
  apply fetch_loop_frame in Hloop as (_ & Ht & _); [|done].
  destruct (read_after_save E (elements found) EmptyString w1)
    as (w2 & Hsave & Hread).
  rewrite Hsave. simpl. intros H. injection H as <-.
  rewrite <- Ht, Hread. rewrite read_back_lines.
  - by rewrite list_to_set_elements_L.
  - apply Forall_forall. intros x Hx. apply Hsafe.
    + intros y Hy. by apply not_elem_of_empty in Hy.
    + by apply elem_of_elements.
Qed.

Lemma get_proxies_result_reads_back_witness :
  let E := Scenarios.spys_answers in
  let w := initial_world [] in
  read_proxy_file (saved_path EmptyString (clock E (ticks w)))
    (get_proxies E (Some ["spysme"]) w).2
  = (Return {[ "203.0.113.5:8080" ]}, (get_proxies E (Some ["spysme"]) w).2).
Proof.
  apply (get_proxies_result_reads_back Scenarios.spys_answers
           (Some ["spysme"]) (initial_world []) {[ "203.0.113.5:8080" ]}).
  - intros page columns c H. by apply elem_of_nil in H.
  - vm_compute. reflexivity.
Defined.

(** X10: a table with a row of a single cell that is an address, on the
    page of the first source, makes [get_proxies] raise [IndexError]:
    one request has been sent, and no file is saved. *)
Theorem get_proxies_short_row E source rest w resp :
  source ∈ keys PROXY_SOURCES ->
  source <> "spysme" ->
  Forall (fun s => s ∈ keys PROXY_SOURCES) rest ->
  (forall req, fetches source req -> network E (sent w) req = inr resp) ->
  is_error_status (status_code resp) = false ->
  Exists short_row (html_rows E (text resp)) ->
  exists w',
    get_proxies E (Some (source :: rest)) w = (Raise IndexError, w') /\
    files w' = files w /\
    length (sent w') = S (length (sent w)).
Proof.
  intros Hkey Hne Hrest Hnet Hstatus Hshort.
  rewrite get_proxies_unfold. cbv zeta.
  change (default (keys PROXY_SOURCES) (Some (source :: rest)))
    with (source :: rest).
  rewrite decide_True by (apply all_sources_valid; by apply Forall_cons).
  cbn [for_each]. unfold_py.
  destruct (fetch_source_cases E ∅ source w Hkey) as (req & Hreq & Hcases).
  simpl in Hcases. rewrite Hcases, (Hnet req Hreq), Hstatus.
  apply String.eqb_neq in Hne. rewrite Hne.
  match goal with |- context [parse_html_table ?soup ?w0] =>
    destruct (parse_html_table_spec soup w0)
      as [[_ ->]|[Hn _]]; [|done] end.
  simpl. eexists. split; [reflexivity|]. simpl. split; [done|].
  rewrite length_app. simpl. lia.
Qed.

Lemma get_proxies_short_row_witness :
  exists w',
    get_proxies Scenarios.broken_table (Some ["sslproxies"; "usproxy"])
      (initial_world [])
    = (Raise IndexError, w') /\
    files w' = files (initial_world []) /\
    length (sent w') = S (length (sent (initial_world []))).
Proof.
  apply (get_proxies_short_row Scenarios.broken_table "sslproxies" ["usproxy"]
           (initial_world []) (Response 200 "<table>")).
  - apply list_elem_of_In. simpl. tauto.
  - discriminate.
  - apply Forall_cons. split; [apply list_elem_of_In; simpl; tauto|].
    apply Forall_nil. done.
  - intros req Hreq. reflexivity.
  - reflexivity.
  - apply Exists_cons_tl, Exists_cons_hd. by exists "198.51.100.7".
Defined.

(** ** save_valid_proxies *)

Lemma written_lines_from (acc : string) (proxies : list string) :
  fold_left (fun f proxy => f +:+ proxy +:+ nl) proxies acc
  = acc +:+ foldr (fun proxy rest => proxy +:+ nl +:+ rest) EmptyString proxies.
Proof.
  revert acc. induction proxies as [|x l IH]; intros acc; simpl.
  - by rewrite append_nil_r.
  - by rewrite IH, !append_assoc.
Qed.

Lemma splitlines_written_lines (proxies : list string) :
  Forall (fun s => no_linebreak s = true) proxies ->
  splitlines (foldr (fun proxy rest => proxy +:+ nl +:+ rest)
                    EmptyString proxies)
  = proxies.
Proof.
  unfold splitlines. induction 1 as [|x l Hx Hl IH]; [done|]. simpl.
  rewrite splitlines_from_line, splitlines_from_nl by done.
  by rewrite append_nil_l, IH.
Qed.

Lemma no_cr_written_lines (proxies : list string) :
  Forall (fun s => no_linebreak s = true) proxies ->
  no_cr (foldr (fun proxy rest => proxy +:+ nl +:+ rest) EmptyString proxies)
  = true.
Proof.
  induction 1 as [|x l Hx Hl IH]; [done|]. simpl.
  pose proof (no_linebreak_no_cr x Hx) as Hcr.
  unfold no_cr in *. by rewrite !all_chars_app, Hcr, IH.
Qed.

(** X11: [save_valid_proxies] ends every proxy with a line feed; read
    back, the file gives the very list it was given, empty strings and
    repetitions included, as long as no string holds a line boundary. *)
Theorem save_valid_proxies_roundtrip E (proxies : list string) prefix w :
  Forall (fun s => no_linebreak s = true) proxies ->
  exists w' content,
    save_valid_proxies E proxies prefix w = (Return None, w') /\
    read_text (saved_path prefix (clock E (ticks w))) w' = (Return content, w') /\
    splitlines content = proxies /\
    read_proxy_file (saved_path prefix (clock E (ticks w))) w'
      = (Return (list_to_set proxies), w').
Proof.
  intros Hsafe.
  unfold save_valid_proxies, get_timestamp, now_strftime, write_text, print.
  unfold_py. simpl. fold (saved_path prefix (clock E (ticks w))).
  eexists _, _. split; [reflexivity|].
  unfold read_proxy_file, try_except, read_text. unfold_py. simpl.
  rewrite lookup_insert_eq. simpl.
  rewrite written_lines_from, append_nil_l.
  rewrite universal_newlines_translate_out by (by apply no_cr_written_lines).
  split; [reflexivity|]. rewrite splitlines_written_lines by done. done.
Qed.

Lemma save_valid_proxies_roundtrip_witness :
  let E := Scenarios.one_proxy_up in
  let proxies := ["203.0.113.5:8080"; EmptyString; "203.0.113.5:8080"] in
  let w := initial_world [] in
  exists w' content,
    save_valid_proxies E proxies "valid" w = (Return None, w') /\
    read_text (saved_path "valid" (clock E (ticks w))) w' = (Return content, w') /\
    splitlines content = proxies /\
    read_proxy_file (saved_path "valid" (clock E (ticks w))) w'
      = (Return (list_to_set proxies), w').
Proof.
  apply (save_valid_proxies_roundtrip Scenarios.one_proxy_up
           ["203.0.113.5:8080"; EmptyString; "203.0.113.5:8080"] "valid"
           (initial_world [])).
  repeat (apply Forall_cons; split; [reflexivity|]). apply Forall_nil. done.
Defined.

(** ** filter_proxies, further *)

Lemma map_each_test_proxy_stdout E l w :
  length (stdout (map_each (test_proxy E) l w).2)
  = (length (stdout w) + length l)%nat.
Proof.
  revert w. induction l as [|p l IH]; intros w; simpl; [lia|].
  unfold_py. rewrite test_proxy_run. simpl.
  match goal with |- context [map_each _ l ?w0] =>
    specialize (IH w0); destruct (map_each (test_proxy E) l w0) as [[ys|e] w1] end;
    simpl in *; rewrite IH, length_app; simpl; lia.
Qed.

(** X19: a run of the validator prints one line for each candidate and
    changes nothing else but the requests sent: no file, no input read,
    no reading of the clock. *)
Theorem filter_proxies_frame E (C : gset string) w :
  exists valid w',
    filter_proxies E C w = (Return valid, w') /\
    files w' = files w /\ stdin w' = stdin w /\ ticks w' = ticks w /\
    length (stdout w') = (length (stdout w) + size C)%nat.
Proof.
  pose proof (map_each_test_proxy_stdout E (elements C) w) as Hout.
  destruct (map_each_test_proxy E (elements C) w) as (w' & Hmap & _ & Hf & Hi & Ht).
  unfold filter_proxies. unfold_py. rewrite Hmap in *. simpl in Hout.
  eexists _, w'. split; [reflexivity|]. done.
Qed.

(** X20: the list the validator returns has no endpoint twice, and its
    members come in the sequence in which the set is gone through. *)
Theorem filter_proxies_NoDup E (C : gset string) w :
  exists valid,
    (filter_proxies E C w).1 = Return valid /\
    NoDup valid /\ valid `sublist_of` elements C.
Proof.
  destruct (filter_proxies_run E C w) as (w' & -> & _).
  eexists. split; [reflexivity|].
  assert (Hsub : collect_valid (outcomes E (sent w) (elements C))
                 `sublist_of` elements C).
  { rewrite collect_valid_spec.
    rewrite <- (outcomes_fst E (sent w) (elements C)) at 2.
    apply fmap_sublist, sublist_filter. }
  split; [|done]. eapply sublist_NoDup; [|exact Hsub]. apply NoDup_elements.
Qed.

(** ** check_proxies_menu *)

Lemma filter_proxies_effects E (C : gset string) w :
  exists w',
    filter_proxies E C w
      = (Return (collect_valid (outcomes E (sent w) (elements C))), w') /\
    sent w' = sent w ++ (probe_request <$> elements C) /\
    files w' = files w /\ ticks w' = ticks w.
Proof.
  destruct (map_each_test_proxy E (elements C) w) as (w' & Hmap & Hs & Hf & _ & Ht).
  exists w'. unfold filter_proxies. unfold_py. rewrite Hmap. unfold ret.
  split; [|done]. do 3 f_equal.
  rewrite <- (outcomes_fst E (sent w) (elements C)) at 1. apply zip_fst_snd.
Qed.

Lemma collect_valid_sublist E hist l :
  collect_valid (outcomes E hist l) `sublist_of` l.
Proof.
  rewrite collect_valid_spec. rewrite <- (outcomes_fst E hist l) at 2.
  apply fmap_sublist, sublist_filter.
Qed.

(** What [check_proxies_menu] does with a file that is there. *)
Lemma check_proxies_menu_present E w path rest content :
  stdin w = path :: rest ->
  files w !! path = Some content ->
  let candidates : gset string :=
    list_to_set (splitlines (universal_newlines content)) in
  let valid := collect_valid (outcomes E (sent w) (elements candidates)) in
  exists w',
    check_proxies_menu E w = (Return tt, w') /\
    sent w' = sent w ++ (probe_request <$> elements candidates) /\
    files w' =
      <[saved_path "working_proxies" (clock E (ticks w)) :=
          translate_out (platform E) (join nl valid)]> (files w).
Proof.
  intros Hin Hfile candidates valid.
  unfold check_proxies_menu, input. unfold_py. rewrite Hin.
  unfold read_proxy_file, try_except, read_text. unfold_py. simpl.
  rewrite Hfile. simpl. fold candidates.
  match goal with |- context [filter_proxies E candidates ?w0] =>
    destruct (filter_proxies_effects E candidates w0)
      as (w1 & -> & Hs & Hf & Ht) end.
  simpl in *. fold valid.
  eexists. split; [reflexivity|]. simpl. by rewrite Hs, Hf, Ht.
Qed.

(** X13: on a file that is there, [check_proxies_menu] returns; it has
    sent one probe for each distinct line of the file, and the one file
    it has written holds, joined by line feeds, a list without
    repetition of lines of the file. *)
Theorem check_proxies_menu_run E w path rest content :
  stdin w = path :: rest ->
  files w !! path = Some content ->
  let candidates : gset string :=
    list_to_set (splitlines (universal_newlines content)) in
  exists valid w',
    check_proxies_menu E w = (Return tt, w') /\
    issued w w' = probe_request <$> elements candidates /\
    NoDup valid /\
    (forall e, e ∈ valid -> e ∈ candidates) /\
    files w' =
      <[saved_path "working_proxies" (clock E (ticks w)) :=
          translate_out (platform E) (join nl valid)]> (files w).
Proof.
  intros Hin Hfile candidates.
  destruct (check_proxies_menu_present E w path rest content Hin Hfile)
    as (w' & Hrun & Hs & Hf).
  eexists _, w'. split; [exact Hrun|]. split; [by apply issued_app|].
  pose proof (collect_valid_sublist E (sent w) (elements candidates)) as Hsub.
  split; [|split; [|exact Hf]].
  - eapply sublist_NoDup; [|exact Hsub]. apply NoDup_elements.
  - intros e He. apply elem_of_elements. by eapply elem_of_sublist.
Qed.

Lemma check_proxies_menu_run_witness :
  let E := Scenarios.one_proxy_up in
  let w := Scenarios.candidates_file in
  let candidates : gset string :=
    list_to_set
      (splitlines
         (universal_newlines
            ("203.0.113.5:8080" +:+ nl +:+ "198.51.100.7:3128"
             +:+ nl +:+ "203.0.113.5:8080" +:+ nl))) in
  exists valid w',
    check_proxies_menu E w = (Return tt, w') /\
    issued w w' = probe_request <$> elements candidates /\
    NoDup valid /\
    (forall e, e ∈ valid -> e ∈ candidates) /\
    files w' =
      <[saved_path "working_proxies" (clock E (ticks w)) :=
          translate_out (platform E) (join nl valid)]> (files w).
Proof.
  apply (check_proxies_menu_run Scenarios.one_proxy_up
           Scenarios.candidates_file "list.txt" []).
  - reflexivity.
  - vm_compute. reflexivity.
Defined.

(** X14: when the file has no blank line, the file [check_proxies_menu]
    writes is read back, by the same menu, as the set of the proxies it
    found working. *)
Theorem check_proxies_menu_output_reads_back E w path rest content :
  stdin w = path :: rest ->
  files w !! path = Some content ->
  EmptyString ∉ splitlines (universal_newlines content) ->
  exists valid w',
    check_proxies_menu E w = (Return tt, w') /\
    (forall e, e ∈ valid <->
       (e, true) ∈ outcomes E (sent w)
          (elements (list_to_set (splitlines (universal_newlines content))
                     : gset string))) /\
    read_proxy_file (saved_path "working_proxies" (clock E (ticks w))) w'
      = (Return (list_to_set valid), w').
Proof.
  intros Hin Hfile Hblank.
  destruct (check_proxies_menu_present E w path rest content Hin Hfile)
    as (w' & Hrun & Hs & Hf).
  eexists _, w'. split; [exact Hrun|].
  split; [intros e; apply elem_of_collect_valid|].
  unfold read_proxy_file, try_except, read_text. unfold_py.
  rewrite Hf, lookup_insert_eq. simpl. rewrite read_back_lines; [done|].
  apply Forall_forall. intros e He.
  eapply elem_of_sublist in He; [|apply collect_valid_sublist].
  apply elem_of_elements, elem_of_list_to_set in He. split.
  - by intros ->.
  - by eapply splitlines_no_linebreak.
Qed.

Lemma check_proxies_menu_output_reads_back_witness :
  let E := Scenarios.one_proxy_up in
  let w := Scenarios.candidates_file in
  let content := "203.0.113.5:8080" +:+ nl +:+ "198.51.100.7:3128"
                 +:+ nl +:+ "203.0.113.5:8080" +:+ nl in
  exists valid w',
    check_proxies_menu E w = (Return tt, w') /\
    (forall e, e ∈ valid <->
       (e, true) ∈ outcomes E (sent w)
          (elements (list_to_set (splitlines (universal_newlines content))
                     : gset string))) /\
    read_proxy_file (saved_path "working_proxies" (clock E (ticks w))) w'
      = (Return (list_to_set valid), w').
Proof.
  apply (check_proxies_menu_output_reads_back Scenarios.one_proxy_up
           Scenarios.candidates_file "list.txt" []).
  - reflexivity.
  - vm_compute. reflexivity.
  - vm_compute. intros H. apply list_elem_of_In in H. simpl in H.
    intuition discriminate.
Defined.

(** ** The menus, run and main *)

#[local] Arguments String.eqb : simpl never.

(** X15: a choice that is not one of the three of the menu makes
    [get_proxies_menu] raise [ValueError] before anything is fetched or
    written. *)
Theorem get_proxies_menu_invalid_choice E w choice rest :
  stdin w = choice :: rest ->
  choice <> "1" -> choice <> "2" -> choice <> "3" ->
  exists w',
    get_proxies_menu E w
      = (Raise (ValueError (Fore_RED +:+ "Invalid choice" +:+ Style_RESET_ALL)),
         w') /\
    sent w' = sent w /\ files w' = files w.
Proof.
  intros Hin H1 H2 H3. unfold get_proxies_menu, print, input. unfold_py.
  simpl. rewrite Hin. simpl.
  assert (Hne : forall k, choice <> k -> String.eqb k choice = false).
  { intros k Hk. apply String.eqb_neq. congruence. }
  rewrite !Hne by done. simpl. by eexists.
Qed.

Lemma get_proxies_menu_invalid_choice_witness :
  exists w',
    get_proxies_menu Scenarios.open_network (initial_world ["4"])
      = (Raise (ValueError (Fore_RED +:+ "Invalid choice" +:+ Style_RESET_ALL)),
         w') /\
    sent w' = sent (initial_world ["4"]) /\
    files w' = files (initial_world ["4"]).
Proof.
  apply (get_proxies_menu_invalid_choice Scenarios.open_network
           (initial_world ["4"]) "4" []); [reflexivity | discriminate..].
Defined.

(** X16: at the first menu, a choice that is not 1 or 2 makes [run]
    print that the choice is invalid and return: nothing is fetched,
    probed or written. *)
Theorem run_invalid_choice E BANNER w choice rest :
  stdin w = choice :: rest ->
  choice <> "1" -> choice <> "2" ->
  exists w',
    run E BANNER w = (Return tt, w') /\
    sent w' = sent w /\ files w' = files w /\
    last (stdout w') = Some (Fore_RED +:+ "Invalid choice" +:+ Style_RESET_ALL).
Proof.
  intros Hin H1 H2.
  unfold run, clear_screen, print, input, try_except. unfold_py.
  simpl. rewrite Hin. simpl.
  apply String.eqb_neq in H1, H2. rewrite H1, H2. simpl.
  eexists. split; [reflexivity|]. simpl. split; [done|]. split; [done|].
  by rewrite last_snoc.
Qed.

Lemma run_invalid_choice_witness :
  exists w',
    run Scenarios.open_network "PROXER" (initial_world ["7"]) = (Return tt, w') /\
    sent w' = sent (initial_world ["7"]) /\
    files w' = files (initial_world ["7"]) /\
    last (stdout w') = Some (Fore_RED +:+ "Invalid choice" +:+ Style_RESET_ALL).
Proof.
  apply (run_invalid_choice Scenarios.open_network "PROXER"
           (initial_world ["7"]) "7" []); [reflexivity | discriminate..].
Defined.

Lemma run_unfold E BANNER w choice rest :
  stdin w = choice :: rest ->
  run E BANNER w =
    try_except (run_menu E choice) is_Exception
      (fun e => print (str_of_exn e)) (run_prompted BANNER w).
Proof.
  intros Hin. unfold run, clear_screen, run_prompted, run_menu.
  unfold_py. unfold ret at 1. unfold print at 1 2. unfold input.
  simpl. rewrite Hin. simpl. by rewrite <- !app_assoc.
Qed.

(** X17: once the first choice is typed, [run] ends as the chosen menu
    ends, but for the exceptions of class [Exception] that the menu
    raises: for each of them [run] prints one line more, the text of the
    exception, changes nothing else and returns.  What it raises itself
    is never an [Exception]. *)
Theorem run_prints_exceptions E BANNER w choice rest :
  stdin w = choice :: rest ->
  match run_menu E choice (run_prompted BANNER w) with
  | (Return _, w1) => run E BANNER w = (Return tt, w1)
  | (Raise e, w1) =>
      if is_Exception e
      then exists line,
             run E BANNER w = (Return tt, printed line w1) /\
             (own_exception e = true -> line = str_of_exn e)
      else run E BANNER w = (Raise e, w1)
  end.
Proof.
  intros Hin. rewrite (run_unfold E BANNER w choice rest Hin).
  unfold try_except.
  destruct (run_menu E choice (run_prompted BANNER w)) as [[[]|e] w1];
    [done|].
  destruct (is_Exception e); [|done].
  exists (str_of_exn e). split; [reflexivity | done].
Qed.

Lemma run_prints_exceptions_witness :
  let E := Scenarios.open_network in
  let w := initial_world ["1"] in
  match run_menu E "1" (run_prompted "PROXER" w) with
  | (Return _, w1) => run E "PROXER" w = (Return tt, w1)
  | (Raise e, w1) =>
      if is_Exception e
      then exists line,
             run E "PROXER" w = (Return tt, printed line w1) /\
             (own_exception e = true -> line = str_of_exn e)
      else run E "PROXER" w = (Raise e, w1)
  end.
Proof.
  apply (run_prints_exceptions Scenarios.open_network "PROXER"
           (initial_world ["1"]) "1" []).
  reflexivity.
Defined.

(** The input ends at the prompt of the sources: the text of the
    [EOFError] is the last line [run] prints. *)
Example run_end_of_input_in_menu :
  let r := run Scenarios.open_network "PROXER" (initial_world ["1"]) in
  r.1 = Return tt /\ last (stdout r.2) = Some "EOF when reading a line".
Proof. vm_compute. done. Qed.


(** Ctrl-C while the first source is fetched goes through [get_proxies]
    and [run], and [main] reports it. *)
Example main_interrupted :
  let r := main Scenarios.interrupted "PROXER" (initial_world ["1"; "1"]) in
  r.1 = Return tt /\
  last (stdout r.2)
  = Some (nl +:+ Fore_YELLOW +:+ "Program terminated by user" +:+
          Style_RESET_ALL) /\
  files r.2 = ∅.
Proof. vm_compute. done. Qed.
